(** * A shallow embedding of the core of new-PLauncher ([main.py])

    The development models
    - [InstanceManager] (the registry persisted to [instances.json]) over a
      model of Python's [json.dump(..., indent=4)] and [json.load];
    - [GameDownloader.run] (the download worker) as a trace of file actions
      and emitted signals, run against an environment that fixes the server's
      reply and the faults raised along the way;
    - [launch_instance], [kill_instance], [handle_error] and
      [handle_finished] (the process supervisor) as a state machine over the
      module-level globals [process], [status] and [log_viewer]. *)

From Stdlib Require Import Bool Arith ZArith List Lia String Ascii.
From Stdlib Require Import DecimalN DecimalPos DecimalFacts.
From Stdlib Require Import Permutation Sorted OrdersEx RelationClasses.
Import ListNotations.

Set Warnings "-register-all".

Local Open Scope string_scope.
Local Open Scope nat_scope.

(* ------------------------------------------------------------------ *)
(** ** Characters and Python's [str(int)] *)

Module PyText.

Definition chr (n : nat) : ascii := ascii_of_nat n.
Definition ord (c : ascii) : nat := nat_of_ascii c.

Definition dquote : ascii := chr 34.
Definition bslash : ascii := chr 92.
Definition nl : ascii := chr 10.

Definition is_digit (c : ascii) : bool := (48 <=? ord c) && (ord c <=? 57).

(** Decimal digits of an [N], as [N.to_uint] produces them. *)
Fixpoint uint_to_string (d : Decimal.uint) : string :=
  match d with
  | Decimal.Nil => ""
  | Decimal.D0 d => String "0" (uint_to_string d)
  | Decimal.D1 d => String "1" (uint_to_string d)
  | Decimal.D2 d => String "2" (uint_to_string d)
  | Decimal.D3 d => String "3" (uint_to_string d)
  | Decimal.D4 d => String "4" (uint_to_string d)
  | Decimal.D5 d => String "5" (uint_to_string d)
  | Decimal.D6 d => String "6" (uint_to_string d)
  | Decimal.D7 d => String "7" (uint_to_string d)
  | Decimal.D8 d => String "8" (uint_to_string d)
  | Decimal.D9 d => String "9" (uint_to_string d)
  end.

Definition str_of_N (n : N) : string := uint_to_string (N.to_uint n).

(** [str(z)] for a Python [int]. *)
Definition str_of_Z (z : Z) : string :=
  match z with
  | Zneg p => String "-" (str_of_N (Npos p))
  | _ => str_of_N (Z.to_N z)
  end.

(** The leading digit constructor a character stands for, if it is one. *)
Definition digit_cons (c : ascii) : option (Decimal.uint -> Decimal.uint) :=
  match ord c with
  | 48 => Some Decimal.D0 | 49 => Some Decimal.D1 | 50 => Some Decimal.D2
  | 51 => Some Decimal.D3 | 52 => Some Decimal.D4 | 53 => Some Decimal.D5
  | 54 => Some Decimal.D6 | 55 => Some Decimal.D7 | 56 => Some Decimal.D8
  | 57 => Some Decimal.D9 | _ => None
  end.

(** [s[len(p):]] when [s.startswith(p)]. *)
Fixpoint strip_prefix (p s : string) : option string :=
  match p, s with
  | EmptyString, _ => Some s
  | String a p', String b s' => if Ascii.eqb a b then strip_prefix p' s' else None
  | String _ _, EmptyString => None
  end.

(** The longest run of decimal digits at the head of a string. *)
Fixpoint scan_digits (s : string) : Decimal.uint * string :=
  match s with
  | String c r =>
      match digit_cons c with
      | Some k => let (u, r') := scan_digits r in (k u, r')
      | None => (Decimal.Nil, s)
      end
  | EmptyString => (Decimal.Nil, EmptyString)
  end.



(** [s[:n]] *)
Fixpoint str_prefix (n : nat) (s : string) : string :=
  match n, s with
  | O, _ => EmptyString
  | S k, String c r => String c (str_prefix k r)
  | S _, EmptyString => EmptyString
  end.

End PyText.

Import PyText.

(* ------------------------------------------------------------------ *)
(** ** Python's [json] module, on the values a registry file can hold

    Strings are byte strings, each character standing for the code point
    of the same number (so code points below 256).  Numbers are Python
    [int]s; JSON numbers with a fraction or an exponent (Python [float]s)
    and the [NaN]/[Infinity] literals are outside this model, as are
    [\uXXXX] escapes of code points of 256 or more. *)

Module Json.

Inductive json : Type :=
| JNull
| JBool (b : bool)
| JInt (z : Z)
| JStr (s : string)
| JArr (l : list json)
| JObj (kvs : list (string * json)).

(** Induction through the nested lists. *)
Section json_rect_nested.
Variable P : json -> Prop.
Hypothesis HNull : P JNull.
Hypothesis HBool : forall b, P (JBool b).
Hypothesis HInt : forall z, P (JInt z).
Hypothesis HStr : forall s, P (JStr s).
Hypothesis HArr : forall l, Forall P l -> P (JArr l).
Hypothesis HObj : forall kvs, Forall (fun kv => P (snd kv)) kvs -> P (JObj kvs).

Fixpoint json_ind' (v : json) : P v :=
  match v with
  | JNull => HNull
  | JBool b => HBool b
  | JInt z => HInt z
  | JStr s => HStr s
  | JArr l =>
      HArr l ((fix go (l : list json) : Forall P l :=
                 match l with
                 | [] => Forall_nil _
                 | x :: xs => Forall_cons _ (json_ind' x) (go xs)
                 end) l)
  | JObj kvs =>
      HObj kvs ((fix go (kvs : list (string * json))
                   : Forall (fun kv => P (snd kv)) kvs :=
                 match kvs with
                 | [] => Forall_nil _
                 | kv :: r => Forall_cons _ (json_ind' (snd kv)) (go r)
                 end) kvs)
  end.
End json_rect_nested.

(** *** Encoder: [json.dump(obj, f, indent=4)] with [ensure_ascii=True] *)

Definition hex_digit (n : nat) : ascii :=
  if n <? 10 then chr (48 + n) else chr (87 + n).

(** [ESCAPE_DCT] and the [\uXXXX] fallback of [py_encode_basestring_ascii]. *)
Definition escape_char (c : ascii) : string :=
  let n := ord c in
  if n =? 34 then String bslash (String dquote EmptyString)
  else if n =? 92 then String bslash (String bslash EmptyString)
  else if n =? 8 then String bslash "b"
  else if n =? 12 then String bslash "f"
  else if n =? 10 then String bslash "n"
  else if n =? 13 then String bslash "r"
  else if n =? 9 then String bslash "t"
  else if (n <? 32) || (126 <? n) then
    String bslash (String "u" (String "0" (String "0"
      (String (hex_digit (n / 16)) (String (hex_digit (n mod 16)) EmptyString)))))
  else String c EmptyString.

Fixpoint escape_body (s : string) : string :=
  match s with
  | EmptyString => EmptyString
  | String c r => escape_char c ++ escape_body r
  end.

Definition encode_str (s : string) : string :=
  String dquote (escape_body s ++ String dquote EmptyString).

Fixpoint spaces (n : nat) : string :=
  match n with O => EmptyString | S k => String " " (spaces k) end.

(** ['\n' + indent * level] *)
Definition newline_indent (lvl : nat) : string := String nl (spaces (4 * lvl)).

Fixpoint str_concat (l : list string) : string :=
  match l with [] => EmptyString | x :: r => x ++ str_concat r end.

(** [_iterencode] at indentation level [lvl]: item separator [","],
    key separator [": "]. *)
Fixpoint dump_at (lvl : nat) (v : json) : string :=
  match v with
  | JNull => "null"
  | JBool true => "true"
  | JBool false => "false"
  | JInt z => str_of_Z z
  | JStr s => encode_str s
  | JArr [] => "[]"
  | JArr (x :: xs) =>
      "[" ++ newline_indent (S lvl) ++ dump_at (S lvl) x
      ++ str_concat (map (fun y => "," ++ newline_indent (S lvl) ++ dump_at (S lvl) y) xs)
      ++ newline_indent lvl ++ "]"
  | JObj [] => "{}"
  | JObj ((k, x) :: kvs) =>
      "{" ++ newline_indent (S lvl) ++ encode_str k ++ ": " ++ dump_at (S lvl) x
      ++ str_concat (map (fun '(k', y) =>
                            "," ++ newline_indent (S lvl) ++ encode_str k' ++ ": "
                            ++ dump_at (S lvl) y) kvs)
      ++ newline_indent lvl ++ "}"
  end.

(** The text [json.dump(obj, f, indent=4)] writes. *)
Definition dumps (v : json) : string := dump_at 0 v.

(** *** Decoder: [json.loads] (the C scanner, [strict=True]) *)

(** [WHITESPACE = r'[ \t\n\r]*'] *)
Definition is_ws (c : ascii) : bool :=
  let n := ord c in (n =? 32) || (n =? 9) || (n =? 10) || (n =? 13).

Fixpoint skip_ws (s : string) : string :=
  match s with
  | String c r => if is_ws c then skip_ws r else s
  | EmptyString => EmptyString
  end.

Definition hex_val (c : ascii) : option nat :=
  let n := ord c in
  if (48 <=? n) && (n <=? 57) then Some (n - 48)
  else if (97 <=? n) && (n <=? 102) then Some (n - 87)
  else if (65 <=? n) && (n <=? 70) then Some (n - 55)
  else None.

(** The one-character escapes: a backslash then a double quote, a backslash,
    a slash or one of the letters b, f, n, r, t. *)
Definition short_unescape (e : ascii) : option ascii :=
  match ord e with
  | 34 => Some dquote | 92 => Some bslash | 47 => Some (chr 47)
  | 98 => Some (chr 8) | 102 => Some (chr 12) | 110 => Some (chr 10)
  | 114 => Some (chr 13) | 116 => Some (chr 9)
  | _ => None
  end.

Definition hex4 (a b c d : ascii) : option nat :=
  match hex_val a, hex_val b, hex_val c, hex_val d with
  | Some x1, Some x2, Some x3, Some x4 => Some (((x1 * 16 + x2) * 16 + x3) * 16 + x4)
  | _, _, _, _ => None
  end.

(** [scanstring] after the opening quote: the decoded contents and the text
    after the closing quote.  Control characters are refused ([strict]). *)
Fixpoint parse_str_body (s : string) : option (string * string) :=
  match s with
  | EmptyString => None
  | String c r =>
      if ord c =? 34 then Some (EmptyString, r)
      else if ord c =? 92 then
        match r with
        | String e r' =>
            match short_unescape e with
            | Some c' =>
                match parse_str_body r' with
                | Some (b, rest) => Some (String c' b, rest)
                | None => None
                end
            | None =>
                if ord e =? 117 then
                  match r' with
                  | String h1 (String h2 (String h3 (String h4 r''))) =>
                      match hex4 h1 h2 h3 h4 with
                      | Some n =>
                          if n <? 256 then
                            match parse_str_body r'' with
                            | Some (b, rest) => Some (String (chr n) b, rest)
                            | None => None
                            end
                          else None
                      | None => None
                      end
                  | _ => None
                  end
                else None
            end
        | EmptyString => None
        end
      else if ord c <? 32 then None
      else
        match parse_str_body r with
        | Some (b, rest) => Some (String c b, rest)
        | None => None
        end
  end.

(** The number pattern of the scanner (an optional minus sign, then 0 or a
    digit 1-9 followed by digits, then an optional fraction and exponent),
    restricted to integers: a dot, [e] or [E] right after the integer part
    is either a [float] (outside the model) or a syntax error, and is
    refused. *)
Definition int_end (neg : bool) (n : N) (r : string) : option (Z * string) :=
  let z := if neg then Z.opp (Z.of_N n) else Z.of_N n in
  match r with
  | String c _ =>
      if (ord c =? 46) || (ord c =? 101) || (ord c =? 69) then None else Some (z, r)
  | EmptyString => Some (z, r)
  end.

Definition parse_int (s : string) : option (Z * string) :=
  let (neg, s1) :=
    match s with
    | String c r => if ord c =? 45 then (true, r) else (false, s)
    | EmptyString => (false, EmptyString)
    end in
  match s1 with
  | String c r =>
      if ord c =? 48 then int_end neg 0%N r
      else if is_digit c then
        let (u, r') := scan_digits s1 in int_end neg (N.of_uint u) r'
      else None
  | EmptyString => None
  end.

(** [d[k] = v] on a dict: a new key goes last, an existing key keeps its
    place and takes the new value. *)
Fixpoint dict_set (kvs : list (string * json)) (k : string) (v : json)
  : list (string * json) :=
  match kvs with
  | [] => [(k, v)]
  | (k', v') :: r =>
      if String.eqb k k' then (k, v) :: r else (k', v') :: dict_set r k v
  end.

(** [scan_once], [JSONArray] and [JSONObject], with a fuel argument. *)
Fixpoint parse_value (fuel : nat) (s : string) {struct fuel}
  : option (json * string) :=
  match fuel with
  | O => None
  | S f =>
      match s with
      | EmptyString => None
      | String c r =>
          if ord c =? 34 then
            match parse_str_body r with
            | Some (x, r') => Some (JStr x, r')
            | None => None
            end
          else if ord c =? 91 then
            match skip_ws r with
            | String c' r' =>
                if ord c' =? 93 then Some (JArr [], r') else parse_elems f [] (skip_ws r)
            | EmptyString => None
            end
          else if ord c =? 123 then
            match skip_ws r with
            | String c' r' =>
                if ord c' =? 125 then Some (JObj [], r') else parse_members f [] (skip_ws r)
            | EmptyString => None
            end
          else
          match strip_prefix "null" s with Some r' => Some (JNull, r') | None =>
          match strip_prefix "true" s with Some r' => Some (JBool true, r') | None =>
          match strip_prefix "false" s with Some r' => Some (JBool false, r') | None =>
          if (ord c =? 45) || is_digit c then
            match parse_int s with
            | Some (z, r') => Some (JInt z, r')
            | None => None
            end
          else None
          end end end
      end
  end
with parse_elems (fuel : nat) (acc : list json) (s : string) {struct fuel}
  : option (json * string) :=
  match fuel with
  | O => None
  | S f =>
      match parse_value f s with
      | Some (v, r) =>
          match skip_ws r with
          | String c r' =>
              if ord c =? 44 then parse_elems f (acc ++ [v])%list (skip_ws r')
              else if ord c =? 93 then Some (JArr (acc ++ [v])%list, r')
              else None
          | EmptyString => None
          end
      | None => None
      end
  end
with parse_members (fuel : nat) (acc : list (string * json)) (s : string) {struct fuel}
  : option (json * string) :=
  match fuel with
  | O => None
  | S f =>
      match s with
      | String q r =>
          if ord q =? 34 then
            match parse_str_body r with
            | Some (k, r1) =>
                match skip_ws r1 with
                | String colon r2 =>
                    if ord colon =? 58 then
                      match parse_value f (skip_ws r2) with
                      | Some (v, r3) =>
                          match skip_ws r3 with
                          | String c r4 =>
                              if ord c =? 44 then parse_members f (dict_set acc k v) (skip_ws r4)
                              else if ord c =? 125 then Some (JObj (dict_set acc k v), r4)
                              else None
                          | EmptyString => None
                          end
                      | None => None
                      end
                    else None
                | EmptyString => None
                end
            | None => None
            end
          else None
      | EmptyString => None
      end
  end.

(** [json.loads(s)]: [None] stands for a raised [JSONDecodeError]
    ("Expecting value", "Extra data", ...). *)
Definition loads (s : string) : option json :=
  match parse_value (S (String.length s)) (skip_ws s) with
  | Some (v, r) =>
      match skip_ws r with EmptyString => Some v | _ => None end
  | None => None
  end.

(** Distinct keys, as in every Python dict. *)
Fixpoint nodup_keys (ks : list string) : bool :=
  match ks with
  | [] => true
  | k :: r => negb (existsb (String.eqb k) r) && nodup_keys r
  end.

(** The values a Python program holds: objects have distinct keys. *)
Fixpoint wf (v : json) : bool :=
  match v with
  | JArr l => forallb wf l
  | JObj kvs => nodup_keys (map fst kvs) && forallb (fun '(_, y) => wf y) kvs
  | _ => true
  end.

(** The fuel [parse_value] uses on the text of a value. *)
Fixpoint fuel_needed (v : json) : nat :=
  match v with
  | JArr l => S (fold_right (fun x acc => S (Nat.max (fuel_needed x) acc)) 0 l)
  | JObj kvs => S (fold_right (fun '(_, y) acc => S (Nat.max (fuel_needed y) acc)) 0 kvs)
  | _ => 1
  end.

(** What may follow a number in a JSON text without extending it. *)
Definition follow_ok (rest : string) : bool :=
  match rest with
  | String c _ => negb (is_digit c) && negb ((ord c =? 46) || (ord c =? 101) || (ord c =? 69))
  | EmptyString => true
  end.

(** The decoder reads the text of [v], at any indentation level, back to [v]
    when enough fuel is given and what follows cannot extend a number. *)
Definition reads_back (v : json) : Prop :=
  forall lvl f rest, wf v = true -> fuel_needed v <= f -> follow_ok rest = true ->
  parse_value f (dump_at lvl v ++ rest) = Some (v, rest).

End Json.

(* ------------------------------------------------------------------ *)
(** ** [InstanceManager] *)

Module Registry.
Import Json.

(** The backing file [instances.json]: absent, or present with its text. *)
Definition file := option string.

(** How the read in [load_instances] goes: [open] and [read] succeed, or one
    of them raises (permission denied, a directory, an undecodable byte...)
    with the given [str(e)]. *)
Inductive read_outcome := ReadOk | ReadFault (err : string).

(** How the write in [save_instances] goes: [open(..., "w")] raises and the
    file is left as it was; or [open] truncates the file and [json.dump]
    raises after the first [n] characters of its output reached the file;
    or everything is written. *)
Inductive write_outcome :=
| WriteOk
| OpenFault (err : string)
| DumpFault (n : nat) (err : string).

(** The [str(e)] of the [JSONDecodeError] raised by [json.load] (its line and
    column are not modelled). *)
Definition decode_error_msg : string := "JSONDecodeError".

(** [load_instances]: the loaded value and the lines printed on stdout. *)
Definition load_instances (ro : read_outcome) (fs : file) : json * list string :=
  match fs with
  | None => (JArr [], [])
  | Some text =>
      match ro with
      | ReadFault e => (JArr [], ["Error loading instances: " ++ e])
      | ReadOk =>
          match loads text with
          | Some v => (v, [])
          | None => (JArr [], ["Error loading instances: " ++ decode_error_msg])
          end
      end
  end.

(** [save_instances]: the file afterwards and the lines printed. *)
Definition save_instances (wo : write_outcome) (v : json) (fs : file) : file * list string :=
  match wo with
  | WriteOk => (Some (dumps v), [])
  | OpenFault e => (fs, ["Error saving instances: " ++ e])
  | DumpFault n e => (Some (str_prefix n (dumps v)), ["Error saving instances: " ++ e])
  end.

(** The exceptions an operation can raise on a loaded value that is not a
    list ([append] on a dict or a string, [len] of a number, [del] of an
    [int] key in a dict, [del] on a string). *)
Inductive py_exc := AttributeError | TypeError | KeyError.

Record manager := mk_manager {
  instances : json;      (** [self.instances] *)
  disk : file;           (** [instances.json] *)
  stdout : list string   (** lines printed so far *)
}.

(** [InstanceManager()] *)
Definition init (ro : read_outcome) (fs : file) : manager :=
  let (v, out) := load_instances ro fs in mk_manager v fs out.

Definition instance_obj (name path : string) : json :=
  JObj [("name", JStr name); ("path", JStr path)].

Definition save (wo : write_outcome) (v : json) (m : manager) : manager :=
  let (fs', out) := save_instances wo v (disk m) in
  mk_manager v fs' (stdout m ++ out)%list.

(** [add_instance]: the manager afterwards and the exception raised, if any
    (an operation that raises changes nothing). *)
Definition add_instance (wo : write_outcome) (name path : string) (m : manager)
  : manager * option py_exc :=
  match instances m with
  | JArr l => (save wo (JArr (l ++ [instance_obj name path])%list) m, None)
  | _ => (m, Some AttributeError)
  end.

(** [len(self.instances)] *)
Definition py_len (v : json) : option Z :=
  match v with
  | JArr l => Some (Z.of_nat (List.length l))
  | JObj kvs => Some (Z.of_nat (List.length kvs))
  | JStr s => Some (Z.of_nat (String.length s))
  | _ => None
  end.

(** [del l[i]] for [0 <= i < len(l)]. *)
Fixpoint delete_at {A} (l : list A) (i : nat) : list A :=
  match l, i with
  | [], _ => []
  | _ :: r, O => r
  | x :: r, S k => x :: delete_at r k
  end.

(** [remove_instance] *)
Definition remove_instance (wo : write_outcome) (index : Z) (m : manager)
  : manager * option py_exc :=
  match py_len (instances m) with
  | None => (m, Some TypeError)
  | Some n =>
      if (0 <=? index)%Z && (index <? n)%Z then
        match instances m with
        | JArr l => (save wo (JArr (delete_at l (Z.to_nat index))) m, None)
        | JObj _ => (m, Some KeyError)
        | _ => (m, Some TypeError)
        end
      else (m, None)
  end.

Inductive op := Add (name path : string) | RemoveAt (index : Z).

Definition step (wo : write_outcome) (o : op) (m : manager) : manager * option py_exc :=
  match o with
  | Add name path => add_instance wo name path m
  | RemoveAt i => remove_instance wo i m
  end.


End Registry.

(* ------------------------------------------------------------------ *)
(** ** [GameDownloader.run] *)

Module Downloader.

Definition bytes := list Byte.byte.

(** Python's whitespace ([str.isspace]) among code points below 256. *)
Definition py_space (c : ascii) : bool :=
  let n := ord c in
  ((9 <=? n) && (n <=? 13)) || ((28 <=? n) && (n <=? 32)) || (n =? 133) || (n =? 160).

Fixpoint lstrip (s : string) : string :=
  match s with
  | String c r => if py_space c then lstrip r else s
  | EmptyString => EmptyString
  end.

Fixpoint str_rev (s : string) (acc : string) : string :=
  match s with
  | String c r => str_rev r (String c acc)
  | EmptyString => acc
  end.

Definition strip (s : string) : string :=
  str_rev (lstrip (str_rev (lstrip s) EmptyString)) EmptyString.

(** Digits with single underscores between them; [seen] tells whether the
    previous character was a digit. *)
Fixpoint digits_underscores (s : string) (acc : N) (seen : bool) : option N :=
  match s with
  | EmptyString => if seen then Some acc else None
  | String c r =>
      if is_digit c then digits_underscores r (acc * 10 + N.of_nat (ord c - 48))%N true
      else if (ord c =? 95) && seen then digits_underscores r acc false
      else None
  end.

(** [int(s)] on a [str], base 10: [None] when it raises [ValueError]. *)
Definition py_int (s : string) : option Z :=
  let t := strip s in
  match t with
  | String c r =>
      if ord c =? 45 then option_map (fun n => Z.opp (Z.of_N n)) (digits_underscores r 0 false)
      else if ord c =? 43 then option_map Z.of_N (digits_underscores r 0 false)
      else option_map Z.of_N (digits_underscores t 0 false)
  | EmptyString => None
  end.

(** What [requests.get(url, stream=True)] returns. *)
Record response := mk_response {
  status_code : Z;
  reason : string;
  final_url : string;
  content_length : option string;   (** [r.headers.get('content-length')] *)
  body : list bytes;                (** what [r.iter_content(chunk_size=8192)] yields *)
  body_fault : option string        (** [str(e)] of the exception [iter_content]
                                        raises after [body] (a broken connection) *)
}.

(** The outcome of every other call [run] makes. *)
Record env := mk_env {
  base_dir : string;                 (** [os.path.dirname(os.path.abspath(__file__))] joined with ["bin"] *)
  makedirs_fault : option string;    (** [os.makedirs(base_dir, exist_ok=True)] raises *)
  get_result : string + response;    (** [requests.get] raises (connection refused,
                                         DNS failure, too many redirects) or answers *)
  open_fault : option string;        (** [open(file_path, 'wb')] raises *)
  write_fault : option (nat * string); (** the [k]-th [f.write] (from 0) raises *)
  win32 : bool;                      (** [sys.platform == "win32"] *)
  chmod_fault : option string        (** [os.chmod(file_path, 0o755)] raises *)
}.

(** The three signals of [GameDownloader]. *)
Inductive event :=
| Progress (p : Z)                   (** [self.progress.emit] *)
| Finished (name path : string)      (** [self.finished.emit] *)
| Error (msg : string).              (** [self.error.emit] *)

Inductive action :=
| MakeDirs (d : string)
| HttpGet (url : string)
| OpenWb (path : string)
| Write (chunk : bytes)
| Chmod (path : string) (mode : Z)
| Emit (e : event).

Definition ends_with_slash (a : string) : bool :=
  match str_rev a EmptyString with String c _ => ord c =? 47 | EmptyString => false end.

(** [os.path.join(a, b)] on POSIX. *)
Definition path_join (a b : string) : string :=
  if match b with String c _ => ord c =? 47 | EmptyString => false end then b
  else match a with
       | EmptyString => b
       | _ => if ends_with_slash a then a ++ b else a ++ "/" ++ b
       end.

(** [raise_for_status()]: the message of the [HTTPError] it raises. *)
Definition http_error (r : response) : option string :=
  let c := status_code r in
  if (400 <=? c)%Z && (c <? 500)%Z then
    Some (str_of_Z c ++ " Client Error: " ++ reason r ++ " for url: " ++ final_url r)
  else if (500 <=? c)%Z && (c <? 600)%Z then
    Some (str_of_Z c ++ " Server Error: " ++ reason r ++ " for url: " ++ final_url r)
  else None.

Definition write_raises (wf : option (nat * string)) (k : nat) : option string :=
  match wf with Some (j, e) => if Nat.eqb j k then Some e else None | None => None end.

(** The [for chunk in r.iter_content(...)] loop over the chunks that arrive:
    the actions taken, the bytes written to the file, and the exception
    raised by a write, if any.  [k] counts the [f.write] calls made so far. *)
Fixpoint chunk_loop (total_size : Z) (wf : option (nat * string)) (k : nat)
    (downloaded : Z) (cs : list bytes) : list action * bytes * option string :=
  match cs with
  | [] => ([], [], None)
  | c :: r =>
      match c with
      | [] => chunk_loop total_size wf k downloaded r
      | _ :: _ =>
          match write_raises wf k with
          | Some e => ([], [], Some e)
          | None =>
              let d := (downloaded + Z.of_nat (List.length c))%Z in
              let here := Write c :: (if (0 <? total_size)%Z
                                      then [Emit (Progress ((d * 100) / total_size)%Z)] else []) in
              let '(a, w, ex) := chunk_loop total_size wf (S k) d r in
              (here ++ a, c ++ w, ex)%list
          end
      end
  end.

(** The result of a run: every action in order, and the destination file
    afterwards ([None] when absent). *)
Record outcome := mk_outcome { actions : list action; dest : option bytes }.

Definition fail (acts : list action) (msg : string) (f : option bytes) : outcome :=
  mk_outcome (acts ++ [Emit (Error msg)])%list f.

(** [GameDownloader(download_url, asset_name, version_tag).run()], with
    [dest0] the destination file before the run.  Every exception is caught by
    [except Exception as e] and becomes [self.error.emit(str(e))].  The
    progress value [int(downloaded * 100 / total_size)] is computed in
    floating point by Python; for byte counts with
    [100 * downloaded + total_size] below 2^53 the truncated quotient is the
    floor division used here. *)
Definition run (E : env) (download_url asset_name version_tag : string)
    (dest0 : option bytes) : outcome :=
  let bd := base_dir E in
  match makedirs_fault E with
  | Some e => fail [MakeDirs bd] e dest0
  | None =>
  let file_path := path_join bd asset_name in
  let pre := [MakeDirs bd; HttpGet download_url] in
  match get_result E with
  | inl e => fail pre e dest0
  | inr r =>
  match http_error r with
  | Some e => fail pre e dest0
  | None =>
  let total := match content_length r with
               | None => Some 0%Z
               | Some h => py_int h
               end in
  match total with
  | None =>
      fail pre ("invalid literal for int() with base 10: '"
                ++ match content_length r with Some h => h | None => "" end ++ "'") dest0
  | Some total_size =>
  match open_fault E with
  | Some e => fail pre e dest0
  | None =>
  let '(acts, written, ex) := chunk_loop total_size (write_fault E) 0 0%Z (body r) in
  let pre' := (pre ++ [OpenWb file_path] ++ acts)%list in
  match ex with
  | Some e => fail pre' e (Some written)
  | None =>
  match body_fault r with
  | Some e => fail pre' e (Some written)
  | None =>
  let chm := if win32 E then [] else [Chmod file_path 493%Z] in
  match (if win32 E then None else chmod_fault E) with
  | Some e => fail (pre' ++ chm)%list e (Some written)
  | None =>
      mk_outcome (pre' ++ chm ++ [Emit (Finished ("Skakavi Krompir " ++ version_tag) file_path)])%list
                 (Some written)
  end end end end end end end end.

(** The signals emitted, in order. *)
Definition events (o : outcome) : list event :=
  flat_map (fun a => match a with Emit e => [e] | _ => [] end) (actions o).

Definition progress_values (evs : list event) : list Z :=
  flat_map (fun e => match e with Progress p => [p] | _ => [] end) evs.

Definition is_error (e : event) : bool := match e with Error _ => true | _ => false end.
Definition is_finished (e : event) : bool := match e with Finished _ _ => true | _ => false end.

End Downloader.

(* ------------------------------------------------------------------ *)
(** ** The process supervisor: [launch_instance], [kill_instance] and the
    slots connected to the [QProcess] signals *)

Module Supervisor.
Import Json.

(** [QProcess.ProcessState] *)
Inductive qstate := NotRunning | Starting | Running.

(** [QProcess.ExitStatus] *)
Inductive exit_status := NormalExit | CrashExit.

(** [QProcess.ProcessError] *)
Inductive process_error :=
| FailedToStart | Crashed | Timedout | WriteError | ReadError | UnknownError.

(** [str()] of a [QProcess.ProcessError] member. *)
Definition process_error_str (e : process_error) : string :=
  match e with
  | FailedToStart => "ProcessError.FailedToStart"
  | Crashed => "ProcessError.Crashed"
  | Timedout => "ProcessError.Timedout"
  | WriteError => "ProcessError.WriteError"
  | ReadError => "ProcessError.ReadError"
  | UnknownError => "ProcessError.UnknownError"
  end.

(** The global [QProcess] object.  [q_label] is the instance name captured by
    the [started] lambda when the object was created. *)
Record qprocess := mk_qprocess {
  q_state : qstate;
  q_pid : Z;
  q_wd : string;
  q_label : string
}.

(** The calls into the operating system. *)
Inductive os_call :=
| MakeDirs (d : string)                   (** [os.makedirs] *)
| Spawn (program : string) (args : list string)  (** [QProcess.start] forks and execs *)
| GetPgid (pid : Z)                       (** [os.getpgid] *)
| KillPg (pgid : Z) (sig : Z)             (** [os.killpg] *)
| KillPid (pid : Z)                       (** [QProcess.kill]: [SIGKILL] to the pid *)
| WaitFor (ms : Z).                       (** [QProcess.waitForFinished] *)

(** The module-level state the functions read and write. *)
Record launcher := mk_launcher {
  process : option qprocess;        (** [process] *)
  status : string;                  (** [status.text()] *)
  log_viewer : option (list string);(** [log_viewer]: [None], or the chunks appended to it *)
  selected : option nat;            (** [instance_list.row(instance_list.currentItem())] *)
  entries : list json;              (** [instance_manager.instances] *)
  calls : list os_call;             (** the OS calls made so far *)
  out : list string                 (** the lines printed on stdout *)
}.

Definition set_status (s : string) (st : launcher) : launcher :=
  mk_launcher (process st) s (log_viewer st) (selected st) (entries st) (calls st) (out st).
Definition set_process (p : option qprocess) (st : launcher) : launcher :=
  mk_launcher p (status st) (log_viewer st) (selected st) (entries st) (calls st) (out st).
Definition add_calls (cs : list os_call) (st : launcher) : launcher :=
  mk_launcher (process st) (status st) (log_viewer st) (selected st) (entries st)
              (calls st ++ cs)%list (out st).
Definition print (line : string) (st : launcher) : launcher :=
  mk_launcher (process st) (status st) (log_viewer st) (selected st) (entries st)
              (calls st) (out st ++ [line])%list.
(** [if log_viewer: log_viewer.append_log(text)] *)
Definition append_log (text : string) (st : launcher) : launcher :=
  mk_launcher (process st) (status st)
              (option_map (fun buf => buf ++ [text])%list (log_viewer st))
              (selected st) (entries st) (calls st) (out st).

(** [os.path.dirname] on POSIX: everything up to the last slash, trailing
    slashes removed unless it is all slashes. *)
Fixpoint last_slash_prefix (s : string) (cur best : string) : string :=
  match s with
  | EmptyString => best
  | String c r =>
      let cur' := (cur ++ String c EmptyString) in
      if ord c =? 47 then last_slash_prefix r cur' cur' else last_slash_prefix r cur' best
  end.

Fixpoint all_slashes (s : string) : bool :=
  match s with
  | EmptyString => true
  | String c r => (ord c =? 47) && all_slashes r
  end.

Definition rstrip_slashes (s : string) : string :=
  Downloader.str_rev
    ((fix go (t : string) : string :=
        match t with String c r => if ord c =? 47 then go r else t | EmptyString => EmptyString end)
     (Downloader.str_rev s EmptyString)) EmptyString.

Definition dirname (p : string) : string :=
  let head := last_slash_prefix p EmptyString EmptyString in
  match head with
  | EmptyString => head
  | _ => if all_slashes head then head else rstrip_slashes head
  end.

(** [instance["name"]], [instance["path"]] of a registry entry.  Entries that
    are not objects with string ["name"] and ["path"] make [launch_instance]
    raise or print them differently; they are outside the model. *)
Fixpoint dict_get (kvs : list (string * json)) (k : string) : option json :=
  match kvs with
  | [] => None
  | (k', v) :: r => if String.eqb k k' then Some v else dict_get r k
  end.

Definition entry_fields (v : json) : option (string * string) :=
  match v with
  | JObj kvs =>
      match dict_get kvs "name", dict_get kvs "path" with
      | Some (JStr n), Some (JStr p) => Some (n, p)
      | _, _ => None
      end
  | _ => None
  end.

(** What the environment answers during [launch_instance]. *)
Record launch_env := mk_launch_env {
  wd_exists : bool;        (** [os.path.exists(working_dir)] *)
  makedirs_fails : bool    (** [os.makedirs(working_dir, exist_ok=True)] raises *)
}.

(** The exceptions [launch_instance] can let escape to its Qt slot. *)
Inductive launch_exc := IndexError | BadEntry | MakedirsError.

(** [launch_instance]: the state afterwards and the exception that escaped,
    if any.  [QProcess.start] returns at once with the process [Starting];
    its success or failure arrives later as a Qt signal. *)
Definition launch_instance (E : launch_env) (st : launcher) : launcher * option launch_exc :=
  match selected st with
  | None => (set_status "No instance selected" st, None)
  | Some row =>
  match nth_error (entries st) row with
  | None => (st, Some IndexError)
  | Some inst =>
  match entry_fields inst with
  | None => (st, Some BadEntry)
  | Some (name, path) =>
  let working_dir := dirname path in
  let st1 := print ("Launching Skakavi Krompir for instance: " ++ name ++ " at " ++ path) st in
  let st2 := set_status ("Launching " ++ name ++ "...") st1 in
  let st3 := append_log ("--- Launching " ++ name ++ " ---" ++ String nl EmptyString) st2 in
  let p := match process st3 with
           | None => mk_qprocess NotRunning 0 EmptyString name
           | Some p => p
           end in
  let st4 := set_process (Some p) st3 in
  match q_state p with
  | NotRunning =>
      let p' := mk_qprocess NotRunning (q_pid p) working_dir (q_label p) in
      let st5 := set_process (Some p') st4 in
      if wd_exists E then
        (add_calls [Spawn "setsid" [path]]
           (set_process (Some (mk_qprocess Starting (q_pid p) working_dir (q_label p))) st5), None)
      else if makedirs_fails E then
        (add_calls [MakeDirs working_dir] st5, Some MakedirsError)
      else
        (add_calls [MakeDirs working_dir; Spawn "setsid" [path]]
           (set_process (Some (mk_qprocess Starting (q_pid p) working_dir (q_label p))) st5), None)
  | _ => (set_status "Already running" st4, None)
  end end end end.

(** [handle_error] *)
Definition handle_error (e : process_error) (st : launcher) : launcher :=
  match e with
  | FailedToStart => set_status "Error: Binary not found or failed to start" st
  | _ => set_status ("Process Error: " ++ process_error_str e) st
  end.

(** [handle_finished] *)
Definition handle_finished (exit_code : Z) (es : exit_status) (st : launcher) : launcher :=
  match es with
  | CrashExit => set_status "Crashed" st
  | NormalExit =>
      if (exit_code =? 0)%Z then set_status "Finished" st
      else set_status ("Finished (Exit Code: " ++ str_of_Z exit_code ++ ")") st
  end.

Definition with_state (s : qstate) (st : launcher) : launcher :=
  match process st with
  | Some p => set_process (Some (mk_qprocess s (q_pid p) (q_wd p) (q_label p))) st
  | None => st
  end.

(** Why the fork/exec of [QProcess.start] can fail. *)
Inductive spawn_failure := ExecNotFound | ExecPermissionDenied | ExecOther.

(** The signals of the [QProcess] after [start], delivered by the event loop. *)
Inductive qt_signal :=
| Started (pid : Z)               (** [started]: the process runs *)
| SpawnFailed (why : spawn_failure)
    (** the start failed: the process goes back to [NotRunning] and
        [errorOccurred] carries [FailedToStart] (and no more) *)
| ErrorOccurred (e : process_error)
| ProcessFinished (code : Z) (es : exit_status).

Definition on_signal (sg : qt_signal) (st : launcher) : launcher :=
  match sg with
  | Started pid =>
      match process st with
      | Some p =>
          set_status ("Running: " ++ q_label p)
            (set_process (Some (mk_qprocess Running pid (q_wd p) (q_label p))) st)
      | None => st
      end
  | SpawnFailed _ => handle_error FailedToStart (with_state NotRunning st)
  | ErrorOccurred e => handle_error e st
  | ProcessFinished code es => handle_finished code es (with_state NotRunning st)
  end.

(** The two exceptions [kill_instance] catches. *)
Inductive os_error := ProcessLookupError | PermissionError.

(** What [os.getpgid] and [os.killpg] answer. *)
Record kill_env := mk_kill_env {
  getpgid_result : Z + os_error;
  killpg_result : option os_error
}.

(** [kill_instance] *)
Definition kill_instance (E : kill_env) (st : launcher) : launcher :=
  match process st with
  | Some p =>
      match q_state p with
      | Running =>
          let pid := q_pid p in
          let signal_calls :=
            match getpgid_result E with
            | inl pgid =>
                ([GetPgid pid; KillPg pgid 9%Z]
                 ++ match killpg_result E with Some _ => [KillPid pid] | None => [] end)%list
            | inr _ => [GetPgid pid; KillPid pid]
            end in
          set_status "Killed" (set_process None (add_calls (signal_calls ++ [WaitFor 1000%Z])%list st))
      | _ => set_status "Not running" st
      end
  | None => set_status "Not running" st
  end.

End Supervisor.

(* ------------------------------------------------------------------ *)
(** ** [os.path.basename] *)

Module Paths.

(** [os.path.basename] on POSIX: [p[p.rfind('/') + 1:]], the text after the
    last slash; [tail] is the text read since the last slash. *)
Fixpoint after_last_slash (s : string) (tail : string) : string :=
  match s with
  | EmptyString => tail
  | String c r =>
      if ord c =? 47 then after_last_slash r EmptyString
      else after_last_slash r (tail ++ String c EmptyString)
  end.

Definition basename (p : string) : string := after_last_slash p EmptyString.

End Paths.

(* ------------------------------------------------------------------ *)
(** ** The instance list: [refresh_instances], [add_new_instance],
    [remove_selected_instance], [handle_download_finished] *)

Module InstanceUi.
Import Json Registry.

(** [inst["name"]] as [QListWidgetItem(icon, inst["name"])] takes it: the
    text of the item, or the exception raised ([KeyError] for a dict without
    ["name"], [TypeError] for a value that is not a dict or a name that is
    not a [str]). *)
Definition item_text (inst : json) : string + py_exc :=
  match inst with
  | JObj kvs =>
      match Supervisor.dict_get kvs "name" with
      | Some (JStr n) => inl n
      | Some _ => inr TypeError
      | None => inr KeyError
      end
  | _ => inr TypeError
  end.

(** [for x in v]: a list gives its elements, a dict its keys, a string its
    characters; anything else raises [TypeError] ([None]). *)
Definition py_iter (v : json) : option (list json) :=
  match v with
  | JArr l => Some l
  | JObj kvs => Some (map (fun kv => JStr (fst kv)) kvs)
  | JStr s => Some (map (fun c => JStr (String c EmptyString)) (list_ascii_of_string s))
  | _ => None
  end.

(** The loop of [refresh_instances]: one item per element, until one raises. *)
Fixpoint add_items (l : list json) : list string * option py_exc :=
  match l with
  | [] => ([], None)
  | inst :: r =>
      match item_text inst with
      | inr e => ([], Some e)
      | inl n => let '(ns, e) := add_items r in (n :: ns, e)
      end
  end.

(** [refresh_instances]: [instance_list.clear()], then the loop; the texts
    of the list afterwards and the exception that escaped, if any. *)
Definition refresh_instances (v : json) : list string * option py_exc :=
  match py_iter v with
  | None => ([], Some TypeError)
  | Some l => add_items l
  end.

(** The state the instance-list slots read and write. *)
Record app := mk_app {
  reg : manager;            (** [instance_manager] *)
  items : list string;      (** the texts of the items of [instance_list] *)
  boxes : list string       (** the texts of the message boxes shown so far *)
}.

Definition show_box (msg : string) (a : app) : app :=
  mk_app (reg a) (items a) (boxes a ++ [msg])%list.

(** The registry [m] takes the place of the old one, then [refresh_instances]. *)
Definition after_refresh (m : manager) (a : app) : app * option py_exc :=
  let '(its, e) := refresh_instances (instances m) in (mk_app m its (boxes a), e).

(** [add_new_instance], [file_path] being what [QFileDialog.getOpenFileName]
    returned (the empty string when the dialog was cancelled). *)
Definition add_new_instance (wo : write_outcome) (file_path : string) (a : app)
  : app * option py_exc :=
  match file_path with
  | EmptyString => (a, None)
  | _ =>
      let '(m, e) := add_instance wo (Paths.basename file_path) file_path (reg a) in
      match e with
      | Some ex => (mk_app m (items a) (boxes a), Some ex)
      | None => after_refresh m a
      end
  end.

(** The button pressed in a [QMessageBox.question]. *)
Inductive reply := Yes | No.

(** [remove_selected_instance], [current] being the row of
    [instance_list.currentItem()] ([None] when there is none) and [r] the
    answer to the confirmation. *)
Definition remove_selected_instance (wo : write_outcome) (current : option nat) (r : reply)
    (a : app) : app * option py_exc :=
  match current with
  | None => (show_box "No instance selected." a, None)
  | Some row =>
      let instance_name := nth row (items a) EmptyString in
      let a1 := show_box ("Are you sure you want to remove '" ++ instance_name ++ "'?"
                          ++ String nl "This will not delete the files, only the launcher entry.") a in
      match r with
      | No => (a1, None)
      | Yes =>
          let '(m, e) := remove_instance wo (Z.of_nat row) (reg a1) in
          match e with
          | Some ex => (mk_app m (items a1) (boxes a1), Some ex)
          | None => after_refresh m a1
          end
      end
  end.

(** [handle_download_finished] (closing the progress dialog is not modelled). *)
Definition handle_download_finished (wo : write_outcome) (name path : string) (a : app)
  : app * option py_exc :=
  let '(m, e) := add_instance wo name path (reg a) in
  match e with
  | Some ex => (mk_app m (items a) (boxes a), Some ex)
  | None =>
      let '(a', e') := after_refresh m a in
      match e' with
      | Some ex => (a', Some ex)
      | None => (show_box ("Downloaded and added instance: " ++ name) a', None)
      end
  end.

End InstanceUi.

(* ------------------------------------------------------------------ *)
(** ** The mod manager: [ModManagerDialog.load_mods], [toggle_mod],
    [remove_mod] *)

Module Mods.

(** An entry of a directory: a regular file with its contents, or a
    subdirectory ([empty] when it has no entries).  Symbolic links are not
    modelled. *)
Inductive node := File (data : string) | Subdir (empty : bool).

(** The entries of a directory, by name (the file system keeps the names
    unique). *)
Definition dir := list (string * node).

Fixpoint dget (d : dir) (n : string) : option node :=
  match d with
  | [] => None
  | (k, x) :: r => if String.eqb k n then Some x else dget r n
  end.

Definition ddel (d : dir) (n : string) : dir :=
  filter (fun e => negb (String.eqb (fst e) n)) d.

Definition dput (d : dir) (n : string) (x : node) : dir := (ddel d n ++ [(n, x)])%list.

(** The errors of [os.rename] and [os.remove] (with their [errno]). *)
Inductive os_err :=
| ENOENT        (** no such file or directory *)
| EISDIR        (** is a directory *)
| ENOTDIR       (** not a directory *)
| ENOTEMPTY     (** directory not empty *)
| EOther (msg : string).  (** any other [OSError]: permission denied, read-only... *)

(** [repr] of a path, for paths without quotes, backslashes or
    unprintable characters. *)
Definition py_quote (p : string) : string := "'" ++ p ++ "'".

(** [str(e)] of the [OSError], [at_path] being the quoted path (or the
    quoted source and target, [' -> '] between them) Python appends. *)
Definition os_err_str (e : os_err) (at_path : string) : string :=
  match e with
  | ENOENT => "[Errno 2] No such file or directory: " ++ at_path
  | EISDIR => "[Errno 21] Is a directory: " ++ at_path
  | ENOTDIR => "[Errno 20] Not a directory: " ++ at_path
  | ENOTEMPTY => "[Errno 39] Directory not empty: " ++ at_path
  | EOther m => m
  end.


(** [os.remove(join(directory, name))]. *)
Definition os_remove (fault : option string) (od : option dir) (name : string) : dir + os_err :=
  match od with
  | None => inr ENOENT
  | Some d =>
  match dget d name with
  | None => inr ENOENT
  | Some (Subdir _) => inr EISDIR
  | Some (File _) =>
      match fault with
      | Some m => inr (EOther m)
      | None => inl (ddel d name)
      end
  end end.

(** [s.endswith(suffix)] *)
Definition ends_with (suffix s : string) : bool :=
  let n := String.length s in
  let k := String.length suffix in
  (k <=? n) && String.eqb (substring (n - k) k s) suffix.

(** [s[:-k]] *)
Definition drop_last (k : nat) (s : string) : string :=
  substring 0 (String.length s - k) s.

(** [sorted(names)]: Python compares [str] code point by code point, which
    on the UTF-8 bytes of file names is the byte order of [String.leb]. *)
Fixpoint insert_sorted (x : string) (l : list string) : list string :=
  match l with
  | [] => [x]
  | y :: r => if String.leb x y then x :: y :: r else y :: insert_sorted x r
  end.

Fixpoint sort (l : list string) : list string :=
  match l with
  | [] => []
  | x :: r => insert_sorted x (sort r)
  end.

(** An item of a mod list: its text, its check state, and the file name
    stored under [Qt.ItemDataRole.UserRole]. *)
Record mod_item := mk_item { label : string; checked : bool; orig : string }.

(** The body of the loop of [load_mods] for the name [f]. *)
Definition mod_entry (d : dir) (f : string) : list mod_item :=
  match dget d f with
  | Some (File _) =>
      let disabled := ends_with ".disabled" f in
      let name := if disabled then drop_last 9 f else f in
      if ends_with ".py" name || ends_with ".skmod" name
      then [mk_item name (negb disabled) f] else []
  | _ => []
  end.

(** [load_mods]: the items of the list afterwards, [None] standing for a
    directory that does not exist. *)
Definition load_mods (od : option dir) : list mod_item :=
  match od with
  | None => []
  | Some d => flat_map (mod_entry d) (sort (map fst d))
  end.

(** A tab of the mod manager: its directory and the items of its list. *)
Record tab := mk_tab {
  tdir : option dir;
  titems : list mod_item;
  tboxes : list string     (** the texts of the message boxes shown so far *)
}.



(** [remove_mod], [current] being the row of [list_widget.currentItem()]
    and [r] the answer to the confirmation. *)
Definition remove_mod (directory : string) (fault : option string) (current : option nat)
    (r : InstanceUi.reply) (t : tab) : tab :=
  match current with
  | None => t
  | Some i =>
  match nth_error (titems t) i with
  | None => t
  | Some it =>
      let filename := orig it in
      let t1 := mk_tab (tdir t) (titems t)
                       (tboxes t ++ [("Are you sure you want to delete '" ++ filename ++ "'?")%string])%list in
      match r with
      | InstanceUi.No => t1
      | InstanceUi.Yes =>
          match os_remove fault (tdir t) filename with
          | inl d' => mk_tab (Some d') (load_mods (Some d')) (tboxes t1)
          | inr e => mk_tab (tdir t1) (titems t1)
                            (tboxes t1 ++ [("Failed to remove mod: " ++
                               os_err_str e (py_quote (Downloader.path_join directory filename)))%string])%list
          end
      end
  end end.

(** [add_mod]: [file_path] is what [QFileDialog.getOpenFileName] returns
    ([""] when the dialog is cancelled), [src] the contents of that file or
    [str(e)] when opening it raises, [same_file] whether [os.path.samefile]
    holds between it and the target, [fault] [str(e)] when opening the target
    for writing raises (permissions, read-only file system).  As
    [shutil.copy(file_path, directory)] does for an existing directory, the
    target is [os.path.join(directory, os.path.basename(file_path))].  A
    missing directory (where [shutil.copy] would create a file in its place)
    is outside this model: [None]. *)
Definition add_mod (directory file_path : string) (src : string + string) (same_file : bool)
    (fault : option string) (t : tab) : option tab :=
  if String.eqb file_path EmptyString then Some t else
  match tdir t with
  | None => None
  | Some d =>
      let name := Paths.basename file_path in
      let dst := Downloader.path_join directory name in
      let err m := Some (mk_tab (Some d) (titems t)
                                (tboxes t ++ [("Failed to add mod: " ++ m)%string])%list) in
      if same_file then err (py_quote file_path ++ " and " ++ py_quote dst ++ " are the same file")
      else match src with
      | inr m => err m
      | inl data =>
          match dget d name with
          | Some (Subdir _) => err (os_err_str EISDIR (py_quote dst))
          | _ =>
              match fault with
              | Some m => err m
              | None =>
                  let d' := dput d name (File data) in
                  Some (mk_tab (Some d') (load_mods (Some d')) (tboxes t))
              end
          end
      end
  end.

End Mods.

(* ------------------------------------------------------------------ *)
(** ** [RepoBrowserDialog.install_version] *)

Module Install.
Import Json Downloader.

(** [REPO_API_URL] *)
Definition repo_api_url : string := "http://localhost:8000".

(** [str(version_id)]; the text of a list or a dict is outside the model. *)
Definition id_text (v : json) : option string :=
  match v with
  | JNull => Some "None"
  | JBool true => Some "True"
  | JBool false => Some "False"
  | JInt z => Some (str_of_Z z)
  | JStr s => Some s
  | _ => None
  end.

(** The loop [for chunk in r.iter_content(chunk_size=8192): f.write(chunk)]:
    every chunk is written, the empty ones too; [k] counts the writes. *)
Fixpoint write_all (wf : option (nat * string)) (k : nat) (cs : list bytes)
  : list action * bytes * option string :=
  match cs with
  | [] => ([], [], None)
  | c :: r =>
      match write_raises wf k with
      | Some e => ([], [], Some e)
      | None => let '(a, w, ex) := write_all wf (S k) r in (Write c :: a, c ++ w, ex)%list
      end
  end.

(** What the calls of [install_version] answer. *)
Record ienv := mk_ienv {
  iget : string + response;             (** [requests.get(url, stream=True)] *)
  iopen_fault : option string;          (** [open(target_path, 'wb')] raises *)
  iwrite_fault : option (nat * string)  (** the [k]-th [f.write] raises *)
}.

(** How [install_version] ends. *)
Inductive iresult :=
| NoVersion                         (** the warning "Please select a version to install." *)
| Installed (name : string)         (** the information box, and [self.accept()] *)
| InstallFailed (msg : string)      (** the box "Failed to download mod: ..." *)
| InstallRaised.                    (** an exception escaped before the [try] *)

Record ioutcome := mk_ioutcome {
  iactions : list action;           (** the HTTP request, the [open] and the writes *)
  itarget : option (string * bytes);(** the file opened for writing, and what it holds *)
  iresult_of : iresult
}.

(** [install_version] with [version_idx] the current index of
    [version_combo] and [versions] its item data, in order; [None] when the
    id of the version is a list or a dict. *)
Definition install_version (E : ienv) (target_dir : string) (version_idx : Z)
    (versions : list json) : option ioutcome :=
  if (version_idx <? 0)%Z then Some (mk_ioutcome [] None NoVersion) else
  match nth_error versions (Z.to_nat version_idx) with
  | Some (JObj kvs) =>
  match Supervisor.dict_get kvs "id", Supervisor.dict_get kvs "filename" with
  | Some vid, Some (JStr filename) =>
  match id_text vid with
  | None => None
  | Some vid_text =>
  let url := repo_api_url ++ "/download/" ++ vid_text in
  let target_path := path_join target_dir filename in
  match iget E with
  | inl e => Some (mk_ioutcome [HttpGet url] None (InstallFailed ("Failed to download mod: " ++ e)))
  | inr r =>
  match http_error r with
  | Some e => Some (mk_ioutcome [HttpGet url] None (InstallFailed ("Failed to download mod: " ++ e)))
  | None =>
  match iopen_fault E with
  | Some e => Some (mk_ioutcome [HttpGet url] None (InstallFailed ("Failed to download mod: " ++ e)))
  | None =>
  let '(acts, written, ex) := write_all (iwrite_fault E) 0 (body r) in
  let acts' := (HttpGet url :: OpenWb target_path :: acts)%list in
  match ex with
  | Some e => Some (mk_ioutcome acts' (Some (target_path, written)) (InstallFailed ("Failed to download mod: " ++ e)))
  | None =>
  match body_fault r with
  | Some e => Some (mk_ioutcome acts' (Some (target_path, written)) (InstallFailed ("Failed to download mod: " ++ e)))
  | None => Some (mk_ioutcome acts' (Some (target_path, written)) (Installed filename))
  end end end end end end
  | _, _ => Some (mk_ioutcome [] None InstallRaised)
  end
  | _ => Some (mk_ioutcome [] None InstallRaised)
  end.

(** How [fetch_projects] fails: the [str(e)] of what [requests.get],
    [raise_for_status] or [response.json()] raised, or the exception of the
    loop over the projects. *)
Inductive fetch_fail := FetchMsg (msg : string) | FetchExc (e : Registry.py_exc).


(** [f"{version['version_number']} ({version['filename']})"]: the text,
    or the exception the subscripts raise; [None] when a field is a list or
    a dict, whose text is outside the model. *)
Definition version_text (v : json) : option (string + Registry.py_exc) :=
  match v with
  | JObj kvs =>
      match Supervisor.dict_get kvs "version_number" with
      | None => Some (inr Registry.KeyError)
      | Some a =>
          match Supervisor.dict_get kvs "filename" with
          | None => Some (inr Registry.KeyError)
          | Some b =>
              match id_text a, id_text b with
              | Some ta, Some tb => Some (inl (ta ++ " (" ++ tb ++ ")"))
              | _, _ => None
              end
          end
      end
  | _ => Some (inr Registry.TypeError)
  end.

(** The loop [version_combo.addItem(text, version)] over the versions, until
    one raises. *)
Fixpoint version_items (l : list json) : option (list (string * json) * option Registry.py_exc) :=
  match l with
  | [] => Some ([], None)
  | v :: r =>
      match version_text v with
      | None => None
      | Some (inr e) => Some ([], Some e)
      | Some (inl t) =>
          match version_items r with
          | None => None
          | Some (its, e) => Some ((t, v) :: its, e)
          end
      end
  end.

(** [fetch_versions], [fetched] being [response.json()] or the [str(e)] of
    what raised before it, [versions] the former [self.versions]: the new
    [self.versions], the items of [version_combo] (cleared first), and the
    failure shown in the box "Failed to fetch versions: ...", if any. *)
Definition fetch_versions (fetched : string + json) (versions : json)
  : option (json * list (string * json) * option fetch_fail) :=
  match fetched with
  | inl e => Some (versions, [], Some (FetchMsg e))
  | inr v =>
      match InstanceUi.py_iter v with
      | None => Some (v, [], Some (FetchExc Registry.TypeError))
      | Some l =>
          match version_items l with
          | None => None
          | Some (its, e) => Some (v, its, option_map FetchExc e)
          end
      end
  end.

End Install.

(* ------------------------------------------------------------------ *)
(** ** [VersionPicker] and [download_instance_dialog] *)

Module Picker.
Import Json.

(** [combo.addItem(x[key], x)] for each [x] of [l]: the entries of the
    combo box, [None] when [x[key]] raises or is not a [str] ([addItem]
    raises [TypeError]). *)
Fixpoint combo_items (key : string) (l : list json) : option (list (string * json)) :=
  match l with
  | [] => Some []
  | x :: r =>
      match x with
      | JObj kvs =>
          match Supervisor.dict_get kvs key with
          | Some (JStr t) => option_map (cons (t, x)) (combo_items key r)
          | _ => None
          end
      | _ => None
      end
  end.

(** Python's truth value of a JSON value. *)
Definition py_truthy (v : json) : bool :=
  match v with
  | JNull => false
  | JBool b => b
  | JInt z => negb (Z.eqb z 0)
  | JStr s => negb (String.eqb s EmptyString)
  | JArr l => negb (Nat.eqb (List.length l) 0)
  | JObj kvs => negb (Nat.eqb (List.length kvs) 0)
  end.

Record picker := mk_picker {
  versions : list (string * json);  (** the items of [version_combo] *)
  assets : list (string * json);    (** the items of [asset_combo] *)
  asset_index : Z                   (** [asset_combo.currentIndex()] *)
}.

(** [update_assets] for the current version: the first one (adding the
    first item makes it current, and the user has not changed it yet). *)
Definition update_assets (vs : list (string * json)) : option (list (string * json)) :=
  match vs with
  | [] => Some []
  | (_, release) :: _ =>
      if py_truthy release then
        match release with
        | JObj kvs =>
            match Supervisor.dict_get kvs "assets" with
            | None => Some []
            | Some a =>
                match InstanceUi.py_iter a with
                | None => None
                | Some l => combo_items "name" l
                end
            end
        | _ => None
        end
      else Some []
  end.

Fixpoint find_text (target : string) (l : list (string * json)) (i : nat) : option nat :=
  match l with
  | [] => None
  | (t, _) :: r => if String.eqb t target then Some i else find_text target r (S i)
  end.

(** [auto_select_asset]: the current index afterwards, starting from the
    index the combo box had (0 after the first [addItem], -1 when empty). *)
Definition auto_select_asset (win32 : bool) (l : list (string * json)) : Z :=
  let target := if win32 then "Skakavi-krompir-Windows.exe" else "Skakavi-Krompir-Linux" in
  match find_text target l 0 with
  | Some i => Z.of_nat i
  | None => match l with [] => (-1)%Z | _ => 0%Z end
  end.

(** [VersionPicker(releases)], [None] when its constructor raises. *)
Definition new_picker (win32 : bool) (releases : json) : option picker :=
  match InstanceUi.py_iter releases with
  | None => None
  | Some rs =>
  match combo_items "tag_name" rs with
  | None => None
  | Some vs =>
  match update_assets vs with
  | None => None
  | Some assets => Some (mk_picker vs assets (auto_select_asset win32 assets))
  end end end.

(** [get_selected]: [currentText()] of the version combo (the empty string
    when it is empty) and [currentData()] of the asset combo. *)
Definition get_selected (p : picker) : string * option json :=
  (match versions p with [] => EmptyString | (t, _) :: _ => t end,
   if (asset_index p <? 0)%Z then None
   else option_map snd (nth_error (assets p) (Z.to_nat (asset_index p)))).

(** The button that closes the dialog. *)
Inductive answer := Ok | Cancel.

(** How [download_instance_dialog] ends. *)
Inductive dresult :=
| FetchFailed (msg : string)                   (** "Failed to fetch releases: ..." *)
| DialogRaised                                 (** an exception escaped *)
| NoDownload
| StartDownload (url : json) (filename version : string).
    (** [start_download(asset["browser_download_url"], asset["name"], version)] *)

(** [download_instance_dialog], [fetched] being the releases
    [response.json()] returned, or the [str(e)] of what [requests.get],
    [raise_for_status] or [json()] raised. *)
Definition download_instance_dialog (win32 : bool) (fetched : string + json) (ans : answer)
  : dresult :=
  match fetched with
  | inl e => FetchFailed ("Failed to fetch releases: " ++ e)
  | inr releases =>
  match new_picker win32 releases with
  | None => DialogRaised
  | Some p =>
  match ans with
  | Cancel => NoDownload
  | Ok =>
      let '(version, asset) := get_selected p in
      match asset with
      | None => NoDownload
      | Some a =>
          if py_truthy a then
            match a with
            | JObj kvs =>
                match Supervisor.dict_get kvs "browser_download_url", Supervisor.dict_get kvs "name" with
                | Some url, Some (JStr filename) => StartDownload url filename version
                | _, _ => DialogRaised
                end
            | _ => DialogRaised
            end
          else NoDownload
      end
  end end end.

End Picker.

(* ------------------------------------------------------------------ *)
(** ** [update_selected_instance_details] and [open_mod_manager] *)

Module Details.
Import Json Registry.





End Details.

(* ================================================================== *)
(** * Specification-side definitions *)

Module JsonSpec.
Import Json.

(** A character a value's text can start with. *)
Definition head_ok (c : ascii) : bool :=
  negb (is_ws c) && negb (ord c =? 93) && negb (ord c =? 125) && negb (ord c =? 44).

End JsonSpec.

Module RegistrySpec.
Import Json Registry.

(** The registry a manager holds is what its file loads to, and a value a
    Python program can hold. *)
Definition consistent (m : manager) : Prop :=
  fst (load_instances ReadOk (disk m)) = instances m /\ wf (instances m) = true.

(** Whether a write of [v] faults: [open] raises, or [json.dump] stops
    before the end of its output. *)
Definition save_faults (wo : write_outcome) (v : json) : Prop :=
  match wo with
  | WriteOk => False
  | OpenFault _ => True
  | DumpFault n _ => n < String.length (dumps v)
  end.

End RegistrySpec.

Module DownloaderSpec.
Import Downloader.

(** The signals among some actions. *)
Definition emits (acts : list action) : list event :=
  flat_map (fun a => match a with Emit e => [e] | _ => [] end) acts.

(** The bytes the [f.write] calls among some actions send to the file. *)
Definition written_bytes (acts : list action) : bytes :=
  flat_map (fun a => match a with Write c => c | _ => [] end) acts.

(** An action of the chunk loop: a write, or a progress signal. *)
Definition loop_action (a : action) : bool :=
  match a with Write _ | Emit (Progress _) => true | _ => false end.

(** An action that is not a final signal. *)
Definition pre_action (a : action) : bool :=
  match a with Emit (Error _) | Emit (Finished _ _) => false | _ => true end.

(** [total_size] as [run] computes it. *)
Definition total_of (r : response) : option Z :=
  match content_length r with None => Some 0%Z | Some h => py_int h end.

Fixpoint nonempty_count (cs : list bytes) : nat :=
  match cs with
  | [] => 0
  | [] :: r => nonempty_count r
  | _ :: r => S (nonempty_count r)
  end.

(** The progress the specification asks for after each non-empty chunk,
    [bytes_received * 100 / content_length], [d] bytes being received before
    [cs]. *)
Fixpoint spec_progress (content_len received : Z) (cs : list bytes) : list Z :=
  match cs with
  | [] => []
  | [] :: r => spec_progress content_len received r
  | c :: r =>
      let received' := (received + Z.of_nat (List.length c))%Z in
      ((received' * 100) / content_len)%Z :: spec_progress content_len received' r
  end.


(** Where a fault message can come from. *)
Definition fault_message (E : env) (msg : string) : Prop :=
  makedirs_fault E = Some msg \/ get_result E = inl msg \/
  (exists r, get_result E = inr r /\
     (http_error r = Some msg \/ body_fault r = Some msg \/
      exists h, content_length r = Some h /\ py_int h = None /\
                msg = "invalid literal for int() with base 10: '" ++ h ++ "'")) \/
  open_fault E = Some msg \/ (exists k, write_fault E = Some (k, msg)) \/
  (win32 E = false /\ chmod_fault E = Some msg).


(** The environment of the examples: the worker writes to
    [/opt/plauncher/bin], nothing faults, and the server answers [r]. *)
Definition quiet_env (r : response) : env :=
  mk_env "/opt/plauncher/bin" None (inr r) None None false None.

Definition zeros (n : nat) : bytes := repeat Byte.x00 n.

(** An action that names a file names [q]; a [finished] signal carries the
    instance name [name] and the path [q]. *)
Definition names_file (q name : string) (a : action) : Prop :=
  match a with
  | OpenWb x => x = q
  | Chmod x _ => x = q
  | Emit (Finished n x) => n = name /\ x = q
  | _ => True
  end.

End DownloaderSpec.

Module SupervisorSpec.
Import Json Supervisor.

(** A registry entry as [add_instance] writes it. *)
Definition entry (name path : string) : json :=
  JObj [("name", JStr name); ("path", JStr path)].

(** A session in which instance [a] runs, the log window is open, and the
    entry of [a] is selected. *)
Definition running_session : launcher :=
  mk_launcher (Some (mk_qprocess Running 4242%Z "/opt/a" "a")) "Running: a" (Some [])
              (Some 0) [entry "a" "/opt/a/game"] [] [].

(** A session whose [setsid] start was just requested. *)
Definition starting_session : launcher :=
  mk_launcher (Some (mk_qprocess Starting 0%Z "/opt/a" "a")) "Launching a..." None
              (Some 0) [entry "a" "/opt/a/game"] [Spawn "setsid" ["/opt/a/game"]] [].

End SupervisorSpec.

Module PathsSpec.

(** Whether a string contains a slash. *)
Fixpoint has_slash (s : string) : bool :=
  match s with
  | EmptyString => false
  | String c r => (ord c =? 47) || has_slash r
  end.

(** [s.startswith("/")] *)
Definition starts_with_slash (s : string) : bool :=
  match s with String c _ => ord c =? 47 | EmptyString => false end.

End PathsSpec.

Module ModsSpec.

(** The order of [sorted] on file names, as a relation. *)
Definition name_le (a b : string) : Prop := String.leb a b = true.

End ModsSpec.

Module InstanceUiSpec.
Import Registry InstanceUi.

(** The list on screen is what [refresh_instances] makes of the registry
    in memory, and that refresh raises nothing. *)
Definition shows (a : app) : Prop := refresh_instances (instances (reg a)) = (items a, None).

End InstanceUiSpec.

(** * Proofs *)

(** ** The JSON text written by [save_instances] reads back *)

Module JsonFacts.
Import Json JsonSpec.

Lemma str_app_assoc (a b c : string) : (a ++ b) ++ c = a ++ (b ++ c).
Proof. induction a as [|x a IH]; simpl; [reflexivity | now rewrite IH]. Qed.

Lemma str_app_nil_l (a : string) : EmptyString ++ a = a.
Proof. reflexivity. Qed.

Lemma str_app_nil_r (a : string) : a ++ EmptyString = a.
Proof. induction a as [|x a IH]; simpl; [reflexivity | now rewrite IH]. Qed.

Lemma str_length_app (a b : string) : String.length (a ++ b) = String.length a + String.length b.
Proof. induction a as [|x a IH]; simpl; [reflexivity | now rewrite IH]. Qed.

(** One escaped character decodes to itself (checked for all 256). *)
Lemma parse_escape_char (c : ascii) (s : string) :
  parse_str_body (escape_char c ++ s) =
  match parse_str_body s with Some (b, r) => Some (String c b, r) | None => None end.
Proof. destruct c as [[] [] [] [] [] [] [] []]; reflexivity. Qed.

Lemma parse_escape_body (b rest : string) :
  parse_str_body (escape_body b ++ String dquote rest) = Some (b, rest).
Proof.
  induction b as [|c b IH]; [reflexivity|].
  simpl. rewrite str_app_assoc, parse_escape_char, IH. reflexivity.
Qed.


Lemma digit_cons_none (c : ascii) : is_digit c = false -> digit_cons c = None.
Proof. destruct c as [[] [] [] [] [] [] [] []]; first [reflexivity | discriminate]. Qed.

Lemma scan_digits_uint (u : Decimal.uint) (rest : string) :
  follow_ok rest = true -> scan_digits (uint_to_string u ++ rest) = (u, rest).
Proof.
  intros Hf. induction u; simpl; try (rewrite IHu; reflexivity).
  destruct rest as [|c r]; [reflexivity|].
  simpl in Hf. apply andb_true_iff in Hf as [Hd _]. apply negb_true_iff in Hd.
  simpl. rewrite (digit_cons_none c Hd). reflexivity.
Qed.

(** [str(n)] for [n > 0] does not start with [0]. *)
Lemma pos_to_uint_head (p : positive) :
  match Pos.to_uint p with Decimal.D0 _ | Decimal.Nil => False | _ => True end.
Proof.
  assert (E : Pos.to_uint p = Decimal.unorm (Pos.to_uint p)).
  { rewrite <- DecimalPos.Unsigned.to_of, DecimalPos.Unsigned.of_to. reflexivity. }
  pose proof (DecimalPos.Unsigned.to_uint_nonzero p) as Hz.
  pose proof (DecimalPos.Unsigned.to_uint_nonnil p) as Hn.
  destruct (Pos.to_uint p) as [|x|x|x|x|x|x|x|x|x|x]; auto.
  rewrite DecimalFacts.unorm_D0 in E.
  destruct x as [|y|y|y|y|y|y|y|y|y|y].
  - apply Hz. reflexivity.
  - assert (L := f_equal Decimal.nb_digits E).
    pose proof (DecimalFacts.nb_digits_unorm (Decimal.D0 y) ltac:(discriminate)). simpl in *; lia.
  - assert (L := f_equal Decimal.nb_digits E).
    pose proof (DecimalFacts.nb_digits_unorm (Decimal.D1 y) ltac:(discriminate)). simpl in *; lia.
  - assert (L := f_equal Decimal.nb_digits E).
    pose proof (DecimalFacts.nb_digits_unorm (Decimal.D2 y) ltac:(discriminate)). simpl in *; lia.
  - assert (L := f_equal Decimal.nb_digits E).
    pose proof (DecimalFacts.nb_digits_unorm (Decimal.D3 y) ltac:(discriminate)). simpl in *; lia.
  - assert (L := f_equal Decimal.nb_digits E).
    pose proof (DecimalFacts.nb_digits_unorm (Decimal.D4 y) ltac:(discriminate)). simpl in *; lia.
  - assert (L := f_equal Decimal.nb_digits E).
    pose proof (DecimalFacts.nb_digits_unorm (Decimal.D5 y) ltac:(discriminate)). simpl in *; lia.
  - assert (L := f_equal Decimal.nb_digits E).
    pose proof (DecimalFacts.nb_digits_unorm (Decimal.D6 y) ltac:(discriminate)). simpl in *; lia.
  - assert (L := f_equal Decimal.nb_digits E).
    pose proof (DecimalFacts.nb_digits_unorm (Decimal.D7 y) ltac:(discriminate)). simpl in *; lia.
  - assert (L := f_equal Decimal.nb_digits E).
    pose proof (DecimalFacts.nb_digits_unorm (Decimal.D8 y) ltac:(discriminate)). simpl in *; lia.
  - assert (L := f_equal Decimal.nb_digits E).
    pose proof (DecimalFacts.nb_digits_unorm (Decimal.D9 y) ltac:(discriminate)). simpl in *; lia.
Qed.

Lemma parse_digits_pos (neg : bool) (p : positive) (rest : string) :
  follow_ok rest = true ->
  (let s1 := uint_to_string (Pos.to_uint p) ++ rest in
   match s1 with
   | String c r =>
       if ord c =? 48 then int_end neg 0%N r
       else if is_digit c then let (u, r') := scan_digits s1 in int_end neg (N.of_uint u) r'
       else None
   | EmptyString => None
   end) = Some ((if neg then Z.opp (Zpos p) else Zpos p), rest).
Proof.
  intros Hf. cbv zeta. rewrite (scan_digits_uint (Pos.to_uint p) rest Hf).
  assert (Hof : N.of_uint (Pos.to_uint p) = Npos p).
  { change (Pos.to_uint p) with (N.to_uint (Npos p)). apply DecimalN.Unsigned.of_to. }
  assert (Hend : int_end neg (Npos p) rest = Some ((if neg then Z.opp (Zpos p) else Zpos p), rest)).
  { unfold int_end. destruct rest as [|c r]; [reflexivity|].
    simpl in Hf. apply andb_true_iff in Hf as [_ He]. apply negb_true_iff in He.
    rewrite He. reflexivity. }
  pose proof (pos_to_uint_head p) as Hh.
  destruct (Pos.to_uint p); try contradiction; simpl in Hof, Hend |- *; rewrite Hof; exact Hend.
Qed.

Lemma parse_int_str (z : Z) (rest : string) :
  follow_ok rest = true -> parse_int (str_of_Z z ++ rest) = Some (z, rest).
Proof.
  intros Hf. destruct z as [|p|p].
  - destruct rest as [|c r]; [reflexivity|].
    simpl in Hf. apply andb_true_iff in Hf as [_ He]. apply negb_true_iff in He.
    unfold parse_int; simpl; unfold int_end; rewrite He; reflexivity.
  - unfold str_of_Z, str_of_N; simpl Z.to_N. unfold parse_int.
    change (N.to_uint (Npos p)) with (Pos.to_uint p).
    pose proof (pos_to_uint_head p) as Hh.
    assert (Hne : match uint_to_string (Pos.to_uint p) ++ rest with
                  | String c _ => ord c =? 45 | EmptyString => false end = false).
    { destruct (Pos.to_uint p); try contradiction; reflexivity. }
    pose proof (parse_digits_pos false p rest Hf) as H. cbv zeta in H.
    destruct (uint_to_string (Pos.to_uint p) ++ rest) as [|c r] eqn:Es.
    + exact H.
    + rewrite Hne. exact H.
  - unfold str_of_Z, str_of_N. unfold parse_int. simpl.
    change (N.to_uint (Npos p)) with (Pos.to_uint p).
    pose proof (parse_digits_pos true p rest Hf) as H. cbv zeta in H. exact H.
Qed.

Lemma skip_ws_spaces (n : nat) (s : string) : skip_ws (spaces n ++ s) = skip_ws s.
Proof. induction n as [|n IH]; simpl; [reflexivity | exact IH]. Qed.

Lemma skip_ws_indent (n : nat) (s : string) : skip_ws (newline_indent n ++ s) = skip_ws s.
Proof. unfold newline_indent. simpl. apply skip_ws_spaces. Qed.

Lemma int_head (z : Z) :
  exists c r, str_of_Z z = String c r /\ ((ord c =? 45) || is_digit c) = true.
Proof.
  destruct z as [|p|p].
  - exists "0"%char, EmptyString. split; reflexivity.
  - unfold str_of_Z, str_of_N. simpl Z.to_N. change (N.to_uint (Npos p)) with (Pos.to_uint p).
    pose proof (DecimalPos.Unsigned.to_uint_nonnil p) as Hn.
    destruct (Pos.to_uint p); [contradiction Hn; reflexivity| ..];
      simpl; eexists _, _; split; reflexivity.
  - eexists _, _. split; reflexivity.
Qed.

Lemma dump_head (lvl : nat) (v : json) :
  exists c r, dump_at lvl v = String c r /\ head_ok c = true.
Proof.
  destruct v as [| [] | z | s | [|x xs] | [|[k x] kvs]]; simpl;
    try (eexists _, _; split; reflexivity).
  destruct (int_head z) as (c & r & Hz & Hc). rewrite Hz. exists c, r. split; [reflexivity|].
  destruct c as [[] [] [] [] [] [] [] []]; first [reflexivity | discriminate].
Qed.

Lemma skip_ws_dump (lvl : nat) (v : json) (s : string) :
  skip_ws (dump_at lvl v ++ s) = dump_at lvl v ++ s.
Proof.
  destruct (dump_head lvl v) as (c & r & E & H). rewrite E. simpl.
  unfold head_ok in H. destruct (is_ws c); [discriminate | reflexivity].
Qed.

Lemma parse_value_num (f : nat) (c : ascii) (s : string) :
  ((ord c =? 45) || is_digit c) = true ->
  parse_value (S f) (String c s) =
  match parse_int (String c s) with Some (z, r') => Some (JInt z, r') | None => None end.
Proof. destruct c as [[] [] [] [] [] [] [] []]; first [discriminate | reflexivity]. Qed.

Lemma nodup_keys_app_not_in (l1 : list string) (k : string) (l2 : list string) :
  nodup_keys (l1 ++ k :: l2)%list = true -> ~ In k l1.
Proof.
  induction l1 as [|a l1 IH]; simpl; [tauto|].
  intros H [E | Hin].
  - subst a. apply andb_true_iff in H as [H _]. apply negb_true_iff in H.
    rewrite existsb_app in H. simpl in H. rewrite String.eqb_refl in H.
    rewrite orb_true_r in H. discriminate.
  - apply andb_true_iff in H as [_ H]. exact (IH H Hin).
Qed.

Lemma dict_set_new (acc : list (string * json)) (k : string) (v : json) :
  ~ In k (map fst acc) -> dict_set acc k v = (acc ++ [(k, v)])%list.
Proof.
  induction acc as [|[k' v'] acc IH]; simpl; [reflexivity|].
  intros H. destruct (String.eqb_spec k k') as [E|E].
  - exfalso. apply H. left. symmetry. exact E.
  - rewrite IH; [reflexivity|]. intros Hin. apply H. right. exact Hin.
Qed.

Lemma follow_ok_indent (n : nat) (s : string) : follow_ok (newline_indent n ++ s) = true.
Proof. reflexivity. Qed.

Lemma follow_ok_comma (s : string) : follow_ok ("," ++ s) = true.
Proof. reflexivity. Qed.

Lemma elems_comma g acc x s :
  match skip_ws ("," ++ s) with
  | EmptyString => None
  | String c r' =>
      if ord c =? 44 then parse_elems g (acc ++ [x])%list (skip_ws r')
      else if ord c =? 93 then Some (JArr (acc ++ [x])%list, r') else None
  end = parse_elems g (acc ++ [x])%list (skip_ws s).
Proof. reflexivity. Qed.

Lemma elems_back (lvl : nat) (xs : list json) :
  Forall reads_back xs ->
  forall x acc g rest, reads_back x ->
  forallb wf (x :: xs) = true ->
  fold_right (fun x acc => S (Nat.max (fuel_needed x) acc)) 0 (x :: xs) <= g ->
  parse_elems g acc
    (dump_at (S lvl) x
     ++ (str_concat (map (fun y => "," ++ newline_indent (S lvl) ++ dump_at (S lvl) y) xs)
     ++ (newline_indent lvl ++ ("]" ++ rest))))
  = Some (JArr (acc ++ x :: xs)%list, rest).
Proof.
  induction xs as [|y ys IH]; intros Hall x acc g rest Hx Hwf Hg; simpl in Hwf, Hg;
    destruct g as [|g]; try lia; apply andb_true_iff in Hwf as [Hwx Hwf].
  - cbn [str_concat map parse_elems append].
    rewrite (Hx (S lvl) g _ Hwx); [| lia | reflexivity].
    rewrite skip_ws_indent. reflexivity.
  - inversion Hall as [|? ? Hy Hys]; subst.
    cbn [str_concat map]. rewrite !str_app_assoc. cbn [parse_elems].
    rewrite (Hx (S lvl) g _ Hwx); [| lia | reflexivity].
    rewrite elems_comma, skip_ws_indent, skip_ws_dump.
    rewrite (IH Hys y (acc ++ [x])%list g rest Hy Hwf ltac:(simpl; lia)).
    rewrite <- app_assoc. reflexivity.
Qed.

Lemma encode_str_app (k s : string) :
  encode_str k ++ s = String dquote (escape_body k ++ String dquote s).
Proof. unfold encode_str. simpl. rewrite str_app_assoc. reflexivity. Qed.

Lemma skip_ws_encode (k s : string) : skip_ws (encode_str k ++ s) = encode_str k ++ s.
Proof. rewrite encode_str_app. reflexivity. Qed.

Lemma member_step (lvl g : nat) acc (k : string) (x : json) (s : string) :
  reads_back x -> wf x = true -> fuel_needed x <= g -> follow_ok s = true ->
  parse_members (S g) acc (encode_str k ++ (": " ++ (dump_at lvl x ++ s))) =
  match skip_ws s with
  | String c r4 =>
      if ord c =? 44 then parse_members g (dict_set acc k x) (skip_ws r4)
      else if ord c =? 125 then Some (JObj (dict_set acc k x), r4)
      else None
  | EmptyString => None
  end.
Proof.
  intros Hx Hw Hf Hs. rewrite encode_str_app. cbn [parse_members].
  change (ord dquote =? 34) with true. cbv iota.
  rewrite parse_escape_body. cbn [append skip_ws].
  change (is_ws ":"%char) with false. cbv iota.
  change (ord ":"%char =? 58) with true. cbv iota.
  change (skip_ws (String " " (dump_at lvl x ++ s))) with (skip_ws (dump_at lvl x ++ s)).
  rewrite skip_ws_dump, (Hx lvl g s Hw Hf Hs). reflexivity.
Qed.

Lemma members_comma g acc s :
  match skip_ws ("," ++ s) with
  | String c r4 =>
      if ord c =? 44 then parse_members g acc (skip_ws r4)
      else if ord c =? 125 then Some (JObj acc, r4)
      else None
  | EmptyString => None
  end = parse_members g acc (skip_ws s).
Proof. reflexivity. Qed.

Lemma members_back (lvl : nat) (kvs : list (string * json)) :
  Forall (fun kv => reads_back (snd kv)) kvs ->
  forall k x acc g rest, reads_back x ->
  nodup_keys (map fst (acc ++ (k, x) :: kvs)) = true ->
  forallb (fun '(_, y) => wf y) ((k, x) :: kvs) = true ->
  fold_right (fun '(_, y) acc => S (Nat.max (fuel_needed y) acc)) 0 ((k, x) :: kvs) <= g ->
  parse_members g acc
    (encode_str k ++ (": " ++ (dump_at (S lvl) x
     ++ (str_concat (map (fun '(k', y) =>
                            "," ++ newline_indent (S lvl) ++ encode_str k' ++ ": "
                            ++ dump_at (S lvl) y) kvs)
     ++ (newline_indent lvl ++ ("}" ++ rest))))))
  = Some (JObj (acc ++ (k, x) :: kvs)%list, rest).
Proof.
  induction kvs as [|[k2 y] ys IH]; intros Hall k x acc g rest Hx Hnd Hwf Hg; simpl in Hwf, Hg;
    destruct g as [|g]; try lia; apply andb_true_iff in Hwf as [Hwx Hwf];
    rewrite map_app in Hnd; pose proof (nodup_keys_app_not_in _ _ _ Hnd) as Hk.
  - cbn [str_concat map]. rewrite str_app_nil_l. rewrite (member_step (S lvl) g acc k x); [| exact Hx | exact Hwx | lia | reflexivity].
    rewrite dict_set_new by exact Hk.
    rewrite skip_ws_indent. reflexivity.
  - inversion Hall as [|? ? Hy Hys]; subst. simpl in Hy.
    cbn [str_concat map]. rewrite !str_app_assoc.
    rewrite (member_step (S lvl) g acc k x); [| exact Hx | exact Hwx | lia | reflexivity].
    rewrite dict_set_new by exact Hk.
    rewrite members_comma, skip_ws_indent, skip_ws_encode.
    rewrite (IH Hys k2 y (acc ++ [(k, x)])%list g rest Hy); [| rewrite <- app_assoc; simpl; rewrite map_app; exact Hnd | exact Hwf | simpl; lia].
    rewrite <- app_assoc. reflexivity.
Qed.

Lemma parse_value_arr (f : nat) (s : string) :
  parse_value (S f) ("[" ++ s) =
  match skip_ws s with
  | String c' r' => if ord c' =? 93 then Some (JArr [], r') else parse_elems f [] (skip_ws s)
  | EmptyString => None
  end.
Proof. reflexivity. Qed.

Lemma parse_value_obj (f : nat) (s : string) :
  parse_value (S f) ("{" ++ s) =
  match skip_ws s with
  | String c' r' => if ord c' =? 125 then Some (JObj [], r') else parse_members f [] (skip_ws s)
  | EmptyString => None
  end.
Proof. reflexivity. Qed.

Lemma match_dump_close (lvl : nat) (x : json) (t : string) (P : option (json * string)) :
  match dump_at lvl x ++ t with
  | String c' r' => if ord c' =? 93 then Some (JArr [], r') else P
  | EmptyString => None
  end = P.
Proof.
  destruct (dump_head lvl x) as (c & r & E & H). rewrite E. simpl.
  unfold head_ok in H. destruct (ord c =? 93); [|reflexivity].
  rewrite andb_false_r, andb_false_l in H. discriminate.
Qed.

Lemma match_encode_close (k t : string) (P : option (json * string)) :
  match encode_str k ++ t with
  | String c' r' => if ord c' =? 125 then Some (JObj [], r') else P
  | EmptyString => None
  end = P.
Proof. rewrite encode_str_app. reflexivity. Qed.

Lemma dump_reads_back (v : json) : reads_back v.
Proof.
  induction v as [| b | z | s | l IHl | kvs IHkvs] using json_ind';
    intros lvl f rest Hw Hf Hr; (destruct f as [|f]; [simpl in Hf; lia|]).
  - reflexivity.
  - destruct b; reflexivity.
  - simpl dump_at. destruct (int_head z) as (c & r & E & H).
    rewrite E. change (String c r ++ rest) with (String c (r ++ rest)).
    rewrite (parse_value_num f c _ H).
    change (String c (r ++ rest)) with (String c r ++ rest).
    rewrite <- E, (parse_int_str z rest Hr). reflexivity.
  - simpl dump_at. rewrite encode_str_app. cbn [parse_value].
    change (ord dquote =? 34) with true. cbv iota.
    rewrite parse_escape_body. reflexivity.
  - destruct l as [|x xs]; [reflexivity|].
    inversion IHl as [|? ? Hx Hxs]; subst.
    cbn [dump_at]. rewrite !str_app_assoc, parse_value_arr, skip_ws_indent, skip_ws_dump,
      match_dump_close.
    simpl in Hw.
    apply (elems_back lvl xs Hxs x [] f rest Hx); [exact Hw | exact (le_S_n _ _ Hf)].
  - destruct kvs as [|[k x] kvs]; [reflexivity|].
    inversion IHkvs as [|? ? Hx Hkvs]; subst. simpl in Hx.
    cbn [dump_at]. rewrite !str_app_assoc, parse_value_obj, skip_ws_indent, skip_ws_encode,
      match_encode_close.
    simpl in Hw. apply andb_true_iff in Hw as [Hnd Hw].
    apply (members_back lvl kvs Hkvs k x [] f rest Hx); [exact Hnd | exact Hw | exact (le_S_n _ _ Hf)].
Qed.

Lemma fuel_elems_le (lvl : nat) (xs : list json) :
  Forall (fun y => forall lvl, fuel_needed y <= String.length (dump_at lvl y)) xs ->
  fold_right (fun x acc => S (Nat.max (fuel_needed x) acc)) 0 xs
  <= String.length (str_concat (map (fun y => "," ++ newline_indent (S lvl) ++ dump_at (S lvl) y) xs)).
Proof.
  induction 1 as [|y ys Hy _ IH]; [simpl; lia|].
  cbn [fold_right map str_concat]. rewrite !str_length_app.
  change (String.length ",") with 1. specialize (Hy (S lvl)). lia.
Qed.

Lemma fuel_members_le (lvl : nat) (kvs : list (string * json)) :
  Forall (fun kv => forall lvl, fuel_needed (snd kv) <= String.length (dump_at lvl (snd kv))) kvs ->
  fold_right (fun '(_, y) acc => S (Nat.max (fuel_needed y) acc)) 0 kvs
  <= String.length (str_concat (map (fun '(k', y) =>
                            "," ++ newline_indent (S lvl) ++ encode_str k' ++ ": "
                            ++ dump_at (S lvl) y) kvs)).
Proof.
  induction 1 as [|[k y] ys Hy _ IH]; [simpl; lia|].
  cbn [fold_right map str_concat]. rewrite !str_length_app.
  change (String.length ",") with 1. simpl in Hy. specialize (Hy (S lvl)). lia.
Qed.

Lemma fuel_le_length (v : json) : forall lvl, fuel_needed v <= String.length (dump_at lvl v).
Proof.
  induction v as [| b | z | s | l IHl | kvs IHkvs] using json_ind'; intros lvl;
    try (destruct (dump_head lvl (JInt z)) as (c & r & E & _); rewrite E);
    try (destruct (dump_head lvl (JStr s)) as (c & r & E & _); rewrite E);
    try (destruct (dump_head lvl (JBool b)) as (c & r & E & _); rewrite E);
    try (simpl; lia).
  - destruct l as [|x xs]; [simpl; lia|].
    inversion IHl as [|? ? Hx Hxs]; subst.
    cbn [dump_at fuel_needed fold_right]. rewrite !str_length_app.
    change (String.length "[") with 1. change (String.length "]") with 1.
    pose proof (fuel_elems_le lvl xs Hxs). specialize (Hx (S lvl)). lia.
  - destruct kvs as [|[k x] kvs]; [simpl; lia|].
    inversion IHkvs as [|? ? Hx Hkvs]; subst. simpl in Hx.
    cbn [dump_at fuel_needed fold_right]. rewrite !str_length_app.
    change (String.length "{") with 1. change (String.length "}") with 1.
    pose proof (fuel_members_le lvl kvs Hkvs). specialize (Hx (S lvl)). lia.
Qed.

(** [json.loads] reads back what [json.dumps(v, indent=4)] writes. *)
Lemma loads_dumps (v : json) : wf v = true -> loads (dumps v) = Some v.
Proof.
  intros Hw. unfold loads, dumps.
  assert (Hs : skip_ws (dump_at 0 v) = dump_at 0 v).
  { rewrite <- (str_app_nil_r (dump_at 0 v)). apply skip_ws_dump. }
  pose proof (fuel_le_length v 0) as Hf.
  pose proof (dump_reads_back v 0 (S (String.length (dump_at 0 v))) EmptyString Hw
                ltac:(lia) eq_refl) as H.
  rewrite str_app_nil_r in H. rewrite Hs, H. reflexivity.
Qed.

(** ** What the decoder returns is a value a Python program can hold *)






End JsonFacts.

(** ** The registry: [InstanceManager] *)

Module RegistryFacts.
Import Json JsonFacts Registry RegistrySpec.



Lemma instance_obj_wf (name path : string) : wf (instance_obj name path) = true.
Proof. reflexivity. Qed.

Lemma forallb_delete_at {A} (p : A -> bool) (l : list A) (i : nat) :
  forallb p l = true -> forallb p (delete_at l i) = true.
Proof.
  revert i. induction l as [|x l IH]; intros [|i] H; simpl in *; try exact H.
  - apply andb_true_iff in H as [H1 H2]. exact H2.
  - apply andb_true_iff in H as [H1 H2]. rewrite H1. exact (IH i H2).
Qed.

Lemma delete_at_spec {A} (l : list A) (i : nat) :
  delete_at l i = (firstn i l ++ skipn (S i) l)%list.
Proof.
  revert i. induction l as [|x l IH]; intros [|i]; try reflexivity.
  simpl delete_at. rewrite IH. reflexivity.
Qed.

Lemma delete_at_length {A} (l : list A) (i : nat) :
  i < List.length l -> List.length (delete_at l i) = List.length l - 1.
Proof.
  revert i. induction l as [|x l IH]; intros [|i] H; simpl in *; try lia.
  rewrite IH by lia. lia.
Qed.

Lemma str_prefix_length (n : nat) (s : string) : String.length (str_prefix n s) <= n.
Proof.
  revert s. induction n as [|n IH]; intros [|c s]; simpl; try lia.
  specialize (IH s). lia.
Qed.







(** C9: on a registry list, [remove_instance] with an index outside
    [0 <= index < len] returns without touching the list or the file; with an
    index inside it removes exactly that entry, keeps the others in order, and
    saves the result. *)
Theorem remove_at_bounds (wo : write_outcome) (l : list json) (i : Z) (m : manager) :
  instances m = JArr l ->
  ((i < 0 \/ Z.of_nat (List.length l) <= i)%Z -> remove_instance wo i m = (m, None)) /\
  ((0 <= i < Z.of_nat (List.length l))%Z ->
   let l' := (firstn (Z.to_nat i) l ++ skipn (S (Z.to_nat i)) l)%list in
   remove_instance wo i m = (save wo (JArr l') m, None) /\
   instances (save wo (JArr l') m) = JArr l' /\
   disk (save WriteOk (JArr l') m) = Some (dumps (JArr l'))).
Proof.
  intros Hm. unfold remove_instance. rewrite Hm. simpl py_len. split.
  - intros Hi. replace ((0 <=? i)%Z && (i <? Z.of_nat (List.length l))%Z) with false; [reflexivity|].
    symmetry. apply andb_false_iff. destruct Hi; [left | right]; apply Z.leb_gt || apply Z.ltb_ge; lia.
  - intros Hi. cbv zeta. replace ((0 <=? i)%Z && (i <? Z.of_nat (List.length l))%Z) with true
      by (symmetry; apply andb_true_iff; split; [apply Z.leb_le | apply Z.ltb_lt]; lia).
    rewrite delete_at_spec. unfold save. destruct (save_instances wo _ _). simpl.
    split; [reflexivity | split; reflexivity].
Qed.

Lemma remove_at_bounds_witness :
  remove_instance WriteOk 5%Z (mk_manager (JArr [JInt 1%Z]) None []) =
    (mk_manager (JArr [JInt 1%Z]) None [], None).
Proof.
  apply (remove_at_bounds WriteOk [JInt 1%Z] 5%Z (mk_manager (JArr [JInt 1%Z]) None []) eq_refl).
  right. simpl. lia.
Defined.

(** C10: when the save of an [add_instance], or of a [remove_instance] with an
    index in range, fails ([open] raises, or [json.dump] stops part way), the
    call returns normally, the list in memory holds the change, and the file
    no longer holds the text of that list. *)
Theorem save_fault_diverges (wo : write_outcome) (o : op) (m : manager) (l l' : list json) :
  consistent m ->
  instances m = JArr l ->
  match o with
  | Add name path => l' = (l ++ [instance_obj name path])%list
  | RemoveAt i => (0 <= i < Z.of_nat (List.length l))%Z /\ l' = delete_at l (Z.to_nat i)
  end ->
  save_faults wo (JArr l') ->
  snd (step wo o m) = None /\
  instances (fst (step wo o m)) = JArr l' /\
  disk (fst (step wo o m)) <> Some (dumps (JArr l')).
Proof.
  intros [Hc Hw] Hm Ho Hf.
  assert (Hstep : step wo o m = (save wo (JArr l') m, None)).
  { destruct o as [name path | i]; simpl.
    - unfold add_instance. rewrite Hm, Ho. reflexivity.
    - destruct Ho as [Hi ->]. unfold remove_instance. rewrite Hm. simpl py_len.
      cbv beta iota. match goal with |- (if ?b then _ else _) = _ => destruct b eqn:Eb end; [reflexivity|].
      apply andb_false_iff in Eb. destruct Eb as [Eb | Eb];
        [apply Z.leb_gt in Eb | apply Z.ltb_ge in Eb]; lia. }
  assert (Hw' : wf (JArr l') = true).
  { rewrite Hm in Hw. simpl in Hw |- *. destruct o as [name path | i].
    - rewrite Ho, forallb_app, Hw. reflexivity.
    - destruct Ho as [_ ->]. apply forallb_delete_at. exact Hw. }
  assert (Hlen : List.length l' <> List.length l).
  { destruct o as [name path | i].
    - rewrite Ho, length_app. simpl. lia.
    - destruct Ho as [Hi ->]. rewrite delete_at_length by lia. lia. }
  rewrite Hstep. unfold save. simpl. split; [reflexivity|].
  destruct wo as [| e | n e]; simpl in Hf |- *; [contradiction | |].
  - split; [reflexivity|]. intros Hd. rewrite Hd in Hc. simpl in Hc.
    rewrite (loads_dumps _ Hw'), Hm in Hc. injection Hc as Hc. apply Hlen. rewrite Hc. reflexivity.
  - split; [reflexivity|]. intros Hd. injection Hd as Hd.
    pose proof (str_prefix_length n (dumps (JArr l'))) as Hp. rewrite Hd in Hp. lia.
Qed.

Lemma save_fault_diverges_witness :
  let m := init ReadOk (Some "[]") in
  snd (step (OpenFault "Permission denied") (Add "a" "/opt/a/game") m) = None /\
  instances (fst (step (OpenFault "Permission denied") (Add "a" "/opt/a/game") m))
    = JArr [instance_obj "a" "/opt/a/game"] /\
  disk (fst (step (OpenFault "Permission denied") (Add "a" "/opt/a/game") m))
    <> Some (dumps (JArr [instance_obj "a" "/opt/a/game"])).
Proof.
  apply (save_fault_diverges (OpenFault "Permission denied") (Add "a" "/opt/a/game")
           (init ReadOk (Some "[]")) [] [instance_obj "a" "/opt/a/game"]).
  - split; vm_compute; reflexivity.
  - vm_compute. reflexivity.
  - reflexivity.
  - exact I.
Defined.

End RegistryFacts.

(** ** The download worker: [GameDownloader.run] *)

Module DownloaderFacts.
Import Downloader DownloaderSpec.

Lemma emits_app (a b : list action) : emits (a ++ b) = (emits a ++ emits b)%list.
Proof. unfold emits. apply flat_map_app. Qed.

Lemma written_bytes_app (a b : list action) :
  written_bytes (a ++ b) = (written_bytes a ++ written_bytes b)%list.
Proof. unfold written_bytes. apply flat_map_app. Qed.

Lemma progress_values_app (a b : list event) :
  progress_values (a ++ b) = (progress_values a ++ progress_values b)%list.
Proof. unfold progress_values. apply flat_map_app. Qed.

Lemma chunk_loop_facts (t : Z) (wf : option (nat * string)) (cs : list bytes) :
  forall k d acts w ex, chunk_loop t wf k d cs = (acts, w, ex) ->
  forallb loop_action acts = true /\ w = written_bytes acts /\
  ((0 < t)%Z -> exists rest, spec_progress t d cs = (progress_values (emits acts) ++ rest)%list
                             /\ (ex = None -> rest = [])) /\
  ((t <= 0)%Z -> progress_values (emits acts) = []) /\
  (ex = None -> forall j e, wf = Some (j, e) -> ~ (k <= j < k + nonempty_count cs)) /\
  (forall msg, ex = Some msg -> exists j, wf = Some (j, msg)).
Proof.
  induction cs as [|c cs IH]; intros k d acts w ex H.
  - simpl in H. injection H as <- <- <-.
    split; [reflexivity|]. split; [reflexivity|].
    split; [intros _; exists []; split; reflexivity|]. split; [reflexivity|].
    split; [intros _ j e _; simpl; lia|]. intros msg Hm; discriminate.
  - destruct c as [|b c].
    + simpl in H. exact (IH k d acts w ex H).
    + cbn [chunk_loop] in H. destruct (write_raises wf k) as [e|] eqn:Ew.
      * injection H as <- <- <-.
        split; [reflexivity|]. split; [reflexivity|].
        split; [intros _; exists (spec_progress t d ((b :: c) :: cs)); split; [reflexivity|discriminate]|].
        split; [reflexivity|]. split; [discriminate|].
        intros msg Hm. injection Hm as <-. unfold write_raises in Ew.
           destruct wf as [[j e']|]; [|discriminate].
           destruct (Nat.eqb j k); [|discriminate]. injection Ew as <-. exists j. reflexivity.
      * remember (d + Z.of_nat (List.length (b :: c)))%Z as d'.
        destruct (chunk_loop t wf (S k) d' cs) as [[a w'] ex'] eqn:El.
        injection H as <- <- <-.
        destruct (IH (S k) d' a w' ex' El) as (Ha & Hw & Hpos & Hneg & Hnone & Hsome).
        assert (Hpv : progress_values (emits (Write (b :: c) :: (if (0 <? t)%Z then [Emit (Progress ((d' * 100) / t))] else []) ++ a))
                      = ((if (0 <? t)%Z then [((d' * 100) / t)%Z] else []) ++ progress_values (emits a))%list).
        { destruct (0 <? t)%Z; reflexivity. }
        rewrite Hpv.
        split; [destruct (0 <? t)%Z; exact Ha|].
        split; [destruct (0 <? t)%Z; rewrite Hw; reflexivity|].
        split; [|split; [|split]].
        -- intros Ht. destruct (Hpos Ht) as (rest & Hr & Hrn). exists rest.
           replace (0 <? t)%Z with true by (symmetry; apply Z.ltb_lt; exact Ht).
           cbn [spec_progress]. rewrite <- Heqd', Hr. split; [reflexivity | exact Hrn].
        -- intros Ht. replace (0 <? t)%Z with false by (symmetry; apply Z.ltb_ge; exact Ht).
           simpl. exact (Hneg Ht).
        -- intros Hex j e Hj. specialize (Hnone Hex j e Hj). subst wf.
           unfold write_raises in Ew. simpl.
           destruct (Nat.eqb_spec j k); [discriminate|]. lia.
        -- exact Hsome.
Qed.

Lemma loop_pre_action (acts : list action) :
  forallb loop_action acts = true -> forallb pre_action acts = true.
Proof.
  induction acts as [|a acts IH]; simpl; [reflexivity|].
  intros H. apply andb_true_iff in H as [H1 H2].
  destruct a as [| | | | | [] ]; try discriminate; simpl; exact (IH H2).
Qed.

(** Every run ends in exactly one of two ways: a fault turned into [error],
    or [finished] after the whole body. *)
Lemma run_view (E : env) (url asset tag : string) (dest0 : option bytes) :
  (exists acts msg,
     actions (run E url asset tag dest0) = (acts ++ [Emit (Error msg)])%list /\
     forallb pre_action acts = true /\
     fault_message E msg /\
     (dest (run E url asset tag dest0) = dest0 \/
      dest (run E url asset tag dest0) = Some (written_bytes acts)) /\
     (forall r t, get_result E = inr r -> total_of r = Some t ->
        ((t <= 0)%Z -> progress_values (emits acts) = []) /\
        ((0 < t)%Z -> exists rest,
           spec_progress t 0 (body r) = (progress_values (emits acts) ++ rest)%list))) \/
  (exists r t acts n p,
     get_result E = inr r /\ makedirs_fault E = None /\ http_error r = None /\
     total_of r = Some t /\ open_fault E = None /\ body_fault r = None /\
     (win32 E = false -> chmod_fault E = None) /\
     chunk_loop t (write_fault E) 0 0%Z (body r) = (acts, written_bytes acts, None) /\
     emits (actions (run E url asset tag dest0)) = (emits acts ++ [Finished n p])%list /\
     dest (run E url asset tag dest0) = Some (written_bytes acts)).
Proof.
  unfold run.
  destruct (makedirs_fault E) as [e|] eqn:Hmk.
  { left. exists [MakeDirs (base_dir E)], e. split; [reflexivity|]. split; [reflexivity|].
    split; [left; exact Hmk|]. split; [left; reflexivity|].
    intros r t _ _. split; [reflexivity | intros _; exists (spec_progress t 0 (body r)); reflexivity]. }
  destruct (get_result E) as [e|r] eqn:Hg.
  { left. eexists _, e. split; [reflexivity|]. split; [reflexivity|].
    split; [right; left; exact Hg|]. split; [left; reflexivity|].
    intros r t Hr _. discriminate. }
  destruct (http_error r) as [e|] eqn:Hh.
  { left. eexists _, e. split; [reflexivity|]. split; [reflexivity|].
    split; [right; right; left; exists r; split; [exact Hg | left; exact Hh]|].
    split; [left; reflexivity|].
    intros r' t _ _. split; [reflexivity | intros _; exists (spec_progress t 0 (body r')); reflexivity]. }
  replace (match content_length r with None => Some 0%Z | Some h => py_int h end) with (total_of r)
    by reflexivity.
  destruct (total_of r) as [t|] eqn:Ht.
  2:{ left. eexists _, _. split; [reflexivity|]. split; [reflexivity|].
      unfold total_of in Ht. destruct (content_length r) as [h|] eqn:Hc; [|discriminate].
      split; [right; right; left; exists r; split; [exact Hg | right; right; exists h; split; [exact Hc | split; [exact Ht | reflexivity]]]|].
      split; [left; reflexivity|].
      intros r' t' Hr' Ht'. injection Hr' as <-. unfold total_of in Ht'. rewrite Hc, Ht in Ht'. discriminate. }
  destruct (open_fault E) as [e|] eqn:Ho.
  { left. eexists _, e. split; [reflexivity|]. split; [reflexivity|].
    split; [right; right; right; left; exact Ho|]. split; [left; reflexivity|].
    intros r' t' _ _. split; [reflexivity | intros _; exists (spec_progress t' 0 (body r')); reflexivity]. }
  destruct (chunk_loop t (write_fault E) 0 0%Z (body r)) as [[acts w] ex] eqn:Hl.
  destruct (chunk_loop_facts t (write_fault E) (body r) 0 0%Z acts w ex Hl)
    as (Ha & Hw & Hpos & Hneg & Hnone & Hsome).
  subst w.
  assert (Hprog : forall r' t', (inr r : string + response) = inr r' -> total_of r' = Some t' ->
            ((t' <= 0)%Z -> progress_values (emits acts) = []) /\
            ((0 < t')%Z -> exists rest,
               spec_progress t' 0 (body r') = (progress_values (emits acts) ++ rest)%list)).
  { intros r' t' Hr' Ht'. injection Hr' as <-. rewrite Ht in Ht'. injection Ht' as <-.
    split; [exact Hneg|]. intros Hpt. destruct (Hpos Hpt) as (rest & Hr & _). exists rest. exact Hr. }
  set (X := ([MakeDirs (base_dir E); HttpGet url] ++ [OpenWb (path_join (base_dir E) asset)] ++ acts)%list).
  assert (Hpre : forallb pre_action X = true).
  { subst X. simpl. exact (loop_pre_action acts Ha). }
  assert (Hpv : progress_values (emits X) = progress_values (emits acts)) by reflexivity.
  assert (Hwb : written_bytes X = written_bytes acts) by reflexivity.
  destruct ex as [e|].
  { left. exists X, e.
    split; [reflexivity|]. split; [exact Hpre|].
    split; [destruct (Hsome e eq_refl) as [j Hj]; right; right; right; right; left; exists j; exact Hj|].
    split; [right; rewrite Hwb; reflexivity|].
    intros r' t' Hr' Ht'. rewrite Hpv. exact (Hprog r' t' Hr' Ht'). }
  destruct (body_fault r) as [e|] eqn:Hb.
  { left. exists X, e.
    split; [reflexivity|]. split; [exact Hpre|].
    split; [right; right; left; exists r; split; [exact Hg | right; left; exact Hb]|].
    split; [right; rewrite Hwb; reflexivity|].
    intros r' t' Hr' Ht'. rewrite Hpv. exact (Hprog r' t' Hr' Ht'). }
  destruct (win32 E) eqn:Hwin; [|destruct (chmod_fault E) as [e|] eqn:Hch].
  - right. exists r, t, acts, ("Skakavi Krompir " ++ tag), (path_join (base_dir E) asset).
    do 8 (split; [first [reflexivity | assumption | discriminate | intros; discriminate]|]).
    split; [|reflexivity].
    unfold actions. rewrite !emits_app. reflexivity.
  - left. exists (X ++ [Chmod (path_join (base_dir E) asset) 493%Z])%list, e.
    split; [unfold X, fail; cbn [actions]; rewrite <- !app_assoc; reflexivity|].
    split; [rewrite forallb_app, Hpre; reflexivity|].
    split; [right; right; right; right; right; split; [exact Hwin | exact Hch]|].
    split; [right; rewrite written_bytes_app, Hwb, List.app_nil_r; reflexivity|].
    intros r' t' Hr' Ht'. rewrite emits_app, progress_values_app, Hpv, List.app_nil_r.
    exact (Hprog r' t' Hr' Ht').
  - right. exists r, t, acts, ("Skakavi Krompir " ++ tag), (path_join (base_dir E) asset).
    do 8 (split; [first [reflexivity | assumption | discriminate | intros; assumption]|]).
    split; [|reflexivity].
    unfold actions. rewrite !emits_app. reflexivity.
Qed.

Lemma events_emits (o : outcome) : events o = emits (actions o).
Proof. reflexivity. Qed.

Lemma pre_action_filters (acts : list action) :
  forallb pre_action acts = true ->
  filter is_error (emits acts) = [] /\ filter is_finished (emits acts) = [].
Proof.
  induction acts as [|a acts IH]; simpl; [split; reflexivity|].
  intros H. apply andb_true_iff in H as [H1 H2].
  destruct a as [| | | | | [p|n q|m]]; simpl; try discriminate; exact (IH H2).
Qed.

Lemma loop_emits (acts : list action) :
  forallb loop_action acts = true -> emits acts = map Progress (progress_values (emits acts)).
Proof.
  induction acts as [|a acts IH]; simpl; [reflexivity|].
  intros H. apply andb_true_iff in H as [H1 H2].
  destruct a as [| | | | | [p|n q|m]]; simpl; try discriminate; rewrite (IH H2) at 1; reflexivity.
Qed.









Lemma run_terminal (E : env) (url asset tag : string) (dest0 : option bytes) :
  List.length (filter (fun e => is_error e || is_finished e) (events (run E url asset tag dest0))) = 1.
Proof.
  rewrite events_emits.
  destruct (run_view E url asset tag dest0)
    as [(acts & msg & Ha & Hp & _ & _ & _) | (r & t & acts & n & p & _ & _ & _ & _ & _ & _ & _ & Hl & He & _)].
  - rewrite Ha, emits_app, filter_app.
    destruct (pre_action_filters acts Hp) as [H1 H2].
    replace (filter (fun e => is_error e || is_finished e) (emits acts)) with (@nil event).
    + reflexivity.
    + clear -H1 H2. induction (emits acts) as [|e es IH]; [reflexivity|].
      simpl in H1, H2 |- *. destruct e; simpl in *; try discriminate; exact (IH H1 H2).
  - rewrite He, filter_app.
    destruct (chunk_loop_facts _ _ _ _ _ _ _ _ Hl) as (Ha & _).
    rewrite (loop_emits acts Ha). clear. induction (progress_values (emits acts)); [reflexivity|].
    exact IHl.
Qed.







Lemma filter_nil_existsb {A} (p : A -> bool) (l : list A) :
  filter p l = [] -> existsb p l = false.
Proof.
  induction l as [|x l IH]; simpl; [reflexivity|].
  destruct (p x); [discriminate | exact IH].
Qed.

(** C5: after each non-empty chunk, with a [content-length] of [t > 0], the
    progress value is [bytes received * 100 / t] (the values are a prefix of
    that list, all of it when the run finishes); with no [content-length]
    there is no progress value, and the run still ends with exactly one
    [finished] or [error]. *)
Theorem progress_formula (E : env) (url asset tag : string) (dest0 : option bytes) (r : response) :
  get_result E = inr r ->
  (forall h t, content_length r = Some h -> py_int h = Some t -> (0 < t)%Z ->
   exists rest,
     spec_progress t 0 (body r) = (progress_values (events (run E url asset tag dest0)) ++ rest)%list /\
     (existsb is_finished (events (run E url asset tag dest0)) = true -> rest = [])) /\
  (content_length r = None ->
   progress_values (events (run E url asset tag dest0)) = [] /\
   List.length (filter (fun e => is_error e || is_finished e) (events (run E url asset tag dest0))) = 1).
Proof.
  intros Hg. split.
  - intros h t Hc Hp Ht. rewrite events_emits.
    assert (Htot : total_of r = Some t) by (unfold total_of; rewrite Hc; exact Hp).
    destruct (run_view E url asset tag dest0)
      as [(acts & msg & Ha & Hpre & _ & _ & Hprog) |
          (r' & t' & acts & n & p & Hg' & _ & _ & Ht' & _ & _ & _ & Hl & He & _)].
    + destruct (Hprog r t Hg Htot) as [_ Hpos]. destruct (Hpos Ht) as (rest & Hr).
      exists rest. rewrite Ha, emits_app, progress_values_app. simpl. rewrite List.app_nil_r.
      split; [exact Hr|]. intros Hf. exfalso.
      destruct (pre_action_filters acts Hpre) as [_ H2].
      rewrite existsb_app, (filter_nil_existsb _ _ H2) in Hf. discriminate.
    + rewrite Hg in Hg'. injection Hg' as <-. rewrite Htot in Ht'. injection Ht' as <-.
      destruct (chunk_loop_facts _ _ _ _ _ _ _ _ Hl) as (_ & _ & Hpos & _ & _ & _).
      destruct (Hpos Ht) as (rest & Hr & Hrn). exists rest.
      rewrite He, progress_values_app. simpl. rewrite List.app_nil_r.
      split; [exact Hr | intros _; exact (Hrn eq_refl)].
  - intros Hc. split; [|apply run_terminal].
    assert (Htot : total_of r = Some 0%Z) by (unfold total_of; rewrite Hc; reflexivity).
    rewrite events_emits.
    destruct (run_view E url asset tag dest0)
      as [(acts & msg & Ha & Hpre & _ & _ & Hprog) |
          (r' & t' & acts & n & p & Hg' & _ & _ & Ht' & _ & _ & _ & Hl & He & _)].
    + destruct (Hprog r 0%Z Hg Htot) as [Hneg _].
      rewrite Ha, emits_app, progress_values_app, (Hneg ltac:(lia)). reflexivity.
    + rewrite Hg in Hg'. injection Hg' as <-. rewrite Htot in Ht'. injection Ht' as <-.
      destruct (chunk_loop_facts _ _ _ _ _ _ _ _ Hl) as (_ & _ & _ & Hneg & _ & _).
      rewrite He, progress_values_app, (Hneg ltac:(lia)). reflexivity.
Qed.

Lemma progress_formula_witness :
  let r := mk_response 200%Z "OK" "https://example.org/g" (Some "400")
                       [zeros 100; zeros 100; zeros 200] None in
  exists rest,
    spec_progress 400 0 (body r)
    = (progress_values (events (run (quiet_env r) "https://example.org/g" "game" "v1" None)) ++ rest)%list /\
    (existsb is_finished (events (run (quiet_env r) "https://example.org/g" "game" "v1" None)) = true ->
     rest = []).
Proof.
  cbv zeta.
  match goal with |- context [quiet_env ?r] =>
    apply (proj1 (progress_formula (quiet_env r) "https://example.org/g" "game" "v1" None r eq_refl)
                 "400" 400%Z);
    [reflexivity | vm_compute; reflexivity | lia]
  end.
Defined.

End DownloaderFacts.

(** ** The process supervisor *)

Module SupervisorFacts.
Import Json Supervisor SupervisorSpec.

(** C1 (the claim, with the effects the call does have): when the [QProcess]
    is starting or running and a valid entry is selected, [launch_instance]
    keeps the same process object, makes no OS call (no new process), and
    ends with the status "Already running"; it still prints its launch line
    and, when the log window is open, appends the launch banner to it. *)
Theorem launch_while_running (E : launch_env) (st : launcher) (p : qprocess)
    (row : nat) (inst : json) (name path : string) :
  process st = Some p -> q_state p <> NotRunning ->
  selected st = Some row -> nth_error (entries st) row = Some inst ->
  entry_fields inst = Some (name, path) ->
  snd (launch_instance E st) = None /\
  status (fst (launch_instance E st)) = "Already running" /\
  process (fst (launch_instance E st)) = Some p /\
  calls (fst (launch_instance E st)) = calls st /\
  out (fst (launch_instance E st))
    = (out st ++ [("Launching Skakavi Krompir for instance: " ++ name ++ " at " ++ path)%string])%list /\
  log_viewer (fst (launch_instance E st))
    = option_map (fun buf => buf ++ [("--- Launching " ++ name ++ " ---" ++ String nl EmptyString)%string])%list
                 (log_viewer st).
Proof.
  intros Hp Hs Hsel Hnth Hent. unfold launch_instance.
  rewrite Hsel, Hnth, Hent. cbn [process set_status print append_log set_process].
  rewrite Hp.
  destruct (q_state p) eqn:Eq; [contradiction | |]; repeat split; reflexivity.
Qed.

Lemma launch_while_running_witness :
  snd (launch_instance (mk_launch_env true false) running_session) = None /\
  status (fst (launch_instance (mk_launch_env true false) running_session)) = "Already running" /\
  process (fst (launch_instance (mk_launch_env true false) running_session))
    = Some (mk_qprocess Running 4242%Z "/opt/a" "a") /\
  calls (fst (launch_instance (mk_launch_env true false) running_session)) = calls running_session /\
  out (fst (launch_instance (mk_launch_env true false) running_session))
    = (out running_session ++ [("Launching Skakavi Krompir for instance: " ++ "a" ++ " at " ++ "/opt/a/game")%string])%list /\
  log_viewer (fst (launch_instance (mk_launch_env true false) running_session))
    = option_map (fun buf => buf ++ [("--- Launching " ++ "a" ++ " ---" ++ String nl EmptyString)%string])%list
                 (log_viewer running_session).
Proof.
  apply (launch_while_running _ running_session _ 0 (entry "a" "/opt/a/game")).
  - reflexivity.
  - discriminate.
  - reflexivity.
  - reflexivity.
  - reflexivity.
Defined.

(** C1, the no-op part: the rejected call is not a no-op; it prints a line
    and writes the launch banner into the open log window (the status text
    also passes through "Launching a..." before "Already running"). *)
Lemma launch_while_running_not_noop :
  fst (launch_instance (mk_launch_env true false) running_session) <> running_session /\
  out (fst (launch_instance (mk_launch_env true false) running_session))
    = ["Launching Skakavi Krompir for instance: a at /opt/a/game"] /\
  log_viewer (fst (launch_instance (mk_launch_env true false) running_session))
    = Some [("--- Launching a ---" ++ String nl EmptyString)%string].
Proof.
  split; [|split; reflexivity].
  intros H. apply (f_equal out) in H. discriminate H.
Qed.

(** C2: [kill_instance] on a running process sends [SIGKILL] to its process
    group ([os.killpg(os.getpgid(pid), 9)]), falls back to [SIGKILL] on the
    pid alone when [getpgid] or [killpg] raises [ProcessLookupError] or
    [PermissionError], then waits at most 1000 ms, drops the process object
    and reports "Killed"; without a running process it reports
    "Not running" and calls nothing. *)
Theorem kill_contract (E : kill_env) (st : launcher) :
  (forall p, process st = Some p -> q_state p = Running ->
   process (kill_instance E st) = None /\ status (kill_instance E st) = "Killed" /\
   exists sigs,
     calls (kill_instance E st) = (calls st ++ sigs ++ [WaitFor 1000%Z])%list /\
     ((exists pgid, getpgid_result E = inl pgid /\ killpg_result E = None /\
                    sigs = [GetPgid (q_pid p); KillPg pgid 9%Z]) \/
      (exists pgid err, getpgid_result E = inl pgid /\ killpg_result E = Some err /\
                        sigs = [GetPgid (q_pid p); KillPg pgid 9%Z; KillPid (q_pid p)]) \/
      (exists err, getpgid_result E = inr err /\ sigs = [GetPgid (q_pid p); KillPid (q_pid p)]))) /\
  ((forall p, process st = Some p -> q_state p <> Running) ->
   kill_instance E st = set_status "Not running" st /\ calls (kill_instance E st) = calls st).
Proof.
  split.
  - intros p Hp Hr. unfold kill_instance. rewrite Hp, Hr.
    split; [reflexivity|]. split; [reflexivity|].
    destruct (getpgid_result E) as [pgid|err] eqn:Eg.
    + destruct (killpg_result E) as [err|] eqn:Ek.
      * eexists. split; [reflexivity|]. right. left. exists pgid, err. repeat split.
      * eexists. split; [reflexivity|]. left. exists pgid. repeat split.
    + eexists. split; [reflexivity|]. right. right. exists err. repeat split.
  - intros Hn. unfold kill_instance.
    destruct (process st) as [p|] eqn:Hp; [|split; reflexivity].
    destruct (q_state p) eqn:Eq; try (split; reflexivity).
    exfalso. exact (Hn p eq_refl Eq).
Qed.

(** C8 (the claim, as the code has it): when the start fails ([errorOccurred]
    with [FailedToStart]), the status is "Error: Binary not found or failed
    to start" whatever the cause; the process object stays set, in the state
    [NotRunning], so the next [launch_instance] starts the instance again. *)
Theorem start_failure_reported (E : launch_env) (st : launcher) (why : spawn_failure)
    (p : qprocess) (row : nat) (inst : json) (name path : string) :
  process st = Some p -> selected st = Some row ->
  nth_error (entries st) row = Some inst -> entry_fields inst = Some (name, path) ->
  wd_exists E = true ->
  status (on_signal (SpawnFailed why) st) = "Error: Binary not found or failed to start" /\
  process (on_signal (SpawnFailed why) st) = Some (mk_qprocess NotRunning (q_pid p) (q_wd p) (q_label p)) /\
  calls (fst (launch_instance E (on_signal (SpawnFailed why) st)))
    = (calls st ++ [Spawn "setsid" [path]])%list.
Proof.
  intros Hp Hsel Hnth Hent Hwd.
  unfold on_signal, with_state. rewrite Hp.
  split; [reflexivity|]. split; [reflexivity|].
  unfold launch_instance. cbn [selected entries handle_error set_status set_process].
  rewrite Hsel, Hnth, Hent. cbn [process set_status print append_log set_process q_state].
  rewrite Hwd. reflexivity.
Qed.

Lemma start_failure_reported_witness :
  status (on_signal (SpawnFailed ExecNotFound) starting_session)
    = "Error: Binary not found or failed to start" /\
  process (on_signal (SpawnFailed ExecNotFound) starting_session)
    = Some (mk_qprocess NotRunning 0%Z "/opt/a" "a") /\
  calls (fst (launch_instance (mk_launch_env true false)
                              (on_signal (SpawnFailed ExecNotFound) starting_session)))
    = (calls starting_session ++ [Spawn "setsid" ["/opt/a/game"]])%list.
Proof.
  apply (start_failure_reported (mk_launch_env true false) starting_session ExecNotFound
           (mk_qprocess Starting 0%Z "/opt/a" "a") 0 (entry "a" "/opt/a/game") "a" "/opt/a/game"); reflexivity.
Defined.

(** C8, the reason and the handle: a start that fails because the
    executable is missing and one that fails because it may not be executed
    leave the same state and the same status, and the process object is
    still set. *)
Lemma start_failure_causes_indistinct :
  on_signal (SpawnFailed ExecNotFound) starting_session
  = on_signal (SpawnFailed ExecPermissionDenied) starting_session /\
  process (on_signal (SpawnFailed ExecNotFound) starting_session) <> None.
Proof. split; [reflexivity | discriminate]. Qed.

End SupervisorFacts.

(** ** Paths: [os.path.join], [os.path.dirname], [os.path.basename] *)

Module PathsFacts.
Import JsonFacts Paths PathsSpec.

Lemma str_rev_acc (s acc : string) :
  Downloader.str_rev s acc = (Downloader.str_rev s EmptyString ++ acc)%string.
Proof.
  revert acc. induction s as [|c s IH]; intros acc; [reflexivity|].
  cbn [Downloader.str_rev]. rewrite (IH (String c acc)), (IH (String c EmptyString)).
  rewrite str_app_assoc. reflexivity.
Qed.

Lemma str_rev_app (a b : string) :
  Downloader.str_rev (a ++ b) EmptyString
  = (Downloader.str_rev b EmptyString ++ Downloader.str_rev a EmptyString)%string.
Proof.
  induction a as [|c a IH].
  - simpl. rewrite str_app_nil_r. reflexivity.
  - cbn [append Downloader.str_rev].
    rewrite (str_rev_acc (a ++ b)), (str_rev_acc a), IH, str_app_assoc. reflexivity.
Qed.

Lemma str_rev_inv (s : string) :
  Downloader.str_rev (Downloader.str_rev s EmptyString) EmptyString = s.
Proof.
  induction s as [|c s IH]; [reflexivity|].
  cbn [Downloader.str_rev]. rewrite (str_rev_acc s (String c EmptyString)), str_rev_app, IH. reflexivity.
Qed.

Lemma last_slash_prefix_app (a b cur best : string) :
  Supervisor.last_slash_prefix (a ++ String "/" b) cur best
  = Supervisor.last_slash_prefix b (cur ++ a ++ "/") (cur ++ a ++ "/").
Proof.
  revert cur best. induction a as [|c a IH]; intros cur best; [reflexivity|].
  cbn [append Supervisor.last_slash_prefix].
  replace (cur ++ String c (a ++ "/"))%string with ((cur ++ String c EmptyString) ++ a ++ "/")%string
    by (rewrite str_app_assoc; reflexivity).
  destruct (ord c =? 47); apply IH.
Qed.

Lemma last_slash_prefix_noslash (b cur best : string) :
  has_slash b = false -> Supervisor.last_slash_prefix b cur best = best.
Proof.
  revert cur best. induction b as [|c b IH]; intros cur best H; [reflexivity|].
  cbn [has_slash] in H. apply orb_false_iff in H as [H1 H2].
  cbn [Supervisor.last_slash_prefix]. rewrite H1. apply IH, H2.
Qed.

Lemma after_last_slash_app (a b t : string) :
  after_last_slash (a ++ String "/" b) t = after_last_slash b EmptyString.
Proof.
  revert t. induction a as [|c a IH]; intros t; [reflexivity|].
  cbn [append after_last_slash]. destruct (ord c =? 47); apply IH.
Qed.

Lemma after_last_slash_noslash (b t : string) :
  has_slash b = false -> after_last_slash b t = (t ++ b)%string.
Proof.
  revert t. induction b as [|c b IH]; intros t H; [symmetry; apply str_app_nil_r|].
  cbn [has_slash] in H. apply orb_false_iff in H as [H1 H2].
  cbn [after_last_slash]. rewrite H1, (IH _ H2), str_app_assoc. reflexivity.
Qed.

Lemma all_slashes_app (a b : string) :
  Supervisor.all_slashes (a ++ b) = Supervisor.all_slashes a && Supervisor.all_slashes b.
Proof.
  induction a as [|c a IH]; [reflexivity|].
  cbn [append Supervisor.all_slashes]. rewrite IH, andb_assoc. reflexivity.
Qed.

Lemma all_slashes_ends (d : string) :
  Supervisor.all_slashes d = true -> d <> EmptyString -> Downloader.ends_with_slash d = true.
Proof.
  unfold Downloader.ends_with_slash.
  induction d as [|c d IH]; intros H Hne; [contradiction|].
  cbn [Supervisor.all_slashes] in H. apply andb_true_iff in H as [H1 H2].
  cbn [Downloader.str_rev]. rewrite str_rev_acc.
  destruct d as [|c' d'].
  - exact H1.
  - specialize (IH H2 ltac:(discriminate)).
    destruct (Downloader.str_rev (String c' d') EmptyString) as [|c0 x]; [discriminate|].
    exact IH.
Qed.

Lemma rstrip_slashes_one (d : string) :
  d <> EmptyString -> Downloader.ends_with_slash d = false ->
  Supervisor.rstrip_slashes (d ++ "/") = d.
Proof.
  intros Hne He. unfold Supervisor.rstrip_slashes.
  rewrite str_rev_app. cbn [Downloader.str_rev append].
  unfold Downloader.ends_with_slash in He.
  pose proof (str_rev_inv d) as Hinv.
  destruct (Downloader.str_rev d EmptyString) as [|c x] eqn:Er.
  - simpl in Hinv. subst d. contradiction.
  - cbn. rewrite He. exact Hinv.
Qed.

(** [os.path.join(d, b)] for a directory [d] not ending in a slash and a
    name [b] without one: [d + "/" + b], whose [dirname] is [d] and whose
    [basename] is [b]. *)
Lemma join_dirname_basename (d b : string) :
  d <> EmptyString -> Downloader.ends_with_slash d = false -> has_slash b = false ->
  Downloader.path_join d b = (d ++ String "/" b)%string /\
  Supervisor.dirname (Downloader.path_join d b) = d /\
  basename (Downloader.path_join d b) = b.
Proof.
  intros Hne He Hb.
  assert (Hj : Downloader.path_join d b = (d ++ String "/" b)%string).
  { unfold Downloader.path_join.
    destruct d as [|c0 d0]; [contradiction|].
    destruct b as [|c b].
    - rewrite He. reflexivity.
    - cbn [has_slash] in Hb. apply orb_false_iff in Hb as [H1 _]. rewrite H1, He. reflexivity. }
  rewrite Hj. split; [reflexivity|]. split.
  - unfold Supervisor.dirname.
    rewrite last_slash_prefix_app, (last_slash_prefix_noslash _ _ _ Hb).
    cbn [append].
    assert (Ha : Supervisor.all_slashes (d ++ "/") = false).
    { rewrite all_slashes_app. destruct (Supervisor.all_slashes d) eqn:Ea; [|reflexivity].
      rewrite (all_slashes_ends d Ea Hne) in He. discriminate. }
    destruct d as [|c0 d0]; [contradiction|].
    cbn [append] in Ha |- *. rewrite Ha.
    exact (rstrip_slashes_one (String c0 d0) Hne He).
  - unfold basename. rewrite after_last_slash_app, (after_last_slash_noslash _ _ Hb). reflexivity.
Qed.

End PathsFacts.

(** ** The mod manager: [load_mods], [toggle_mod], [remove_mod] *)

Module ModsFacts.
Import Mods ModsSpec.

(** *** The order of [sorted] *)

Lemma str_compare_lt_trans (a b c : string) :
  String.compare a b = Lt -> String.compare b c = Lt -> String.compare a c = Lt.
Proof.
  intros H1 H2.
  exact (@StrictOrder_Transitive _ _ OrdersEx.String_as_OT.lt_strorder a b c H1 H2).
Qed.

Lemma str_leb_trans (a b c : string) :
  String.leb a b = true -> String.leb b c = true -> String.leb a c = true.
Proof.
  unfold String.leb.
  destruct (String.compare a b) eqn:Eab; try discriminate; intros _;
  destruct (String.compare b c) eqn:Ebc; try discriminate; intros _.
  - apply String.compare_eq_iff in Eab; apply String.compare_eq_iff in Ebc; subst.
    destruct (String.compare c c) eqn:E; auto.
    pose proof (String.compare_antisym c c) as A; rewrite E in A; discriminate.
  - apply String.compare_eq_iff in Eab; subst; rewrite Ebc; auto.
  - apply String.compare_eq_iff in Ebc; subst; rewrite Eab; auto.
  - rewrite (str_compare_lt_trans a b c Eab Ebc); auto.
Qed.

Lemma insert_sorted_perm x l : Permutation (insert_sorted x l) (x :: l).
Proof.
  induction l as [|y r IH]; simpl; [auto|].
  destruct (String.leb x y); [auto|].
  eapply perm_trans; [apply perm_skip, IH | apply perm_swap].
Qed.

Lemma sort_perm l : Permutation (sort l) l.
Proof.
  induction l as [|x r IH]; simpl; [auto|].
  eapply perm_trans; [apply insert_sorted_perm | auto].
Qed.

Lemma insert_sorted_sorted x l :
  StronglySorted name_le l -> StronglySorted name_le (insert_sorted x l).
Proof.
  induction 1 as [|y r Hr IH Hy]; simpl.
  - repeat constructor.
  - destruct (String.leb x y) eqn:E.
    + constructor; [constructor; auto|]. constructor; [exact E|].
      eapply Forall_impl; [|exact Hy]. intros z Hz. exact (str_leb_trans _ _ _ E Hz).
    + constructor; [exact IH|].
      apply (Permutation_Forall (Permutation_sym (insert_sorted_perm x r))).
      constructor; [|exact Hy].
      destruct (String.leb_total x y) as [H|H]; [congruence|exact H].
Qed.

Lemma sort_sorted l : StronglySorted name_le (sort l).
Proof.
  induction l as [|x r IH]; simpl; [constructor|apply insert_sorted_sorted, IH].
Qed.

Lemma sorted_perm_eq l1 : forall l2,
  StronglySorted name_le l1 -> StronglySorted name_le l2 -> Permutation l1 l2 -> l1 = l2.
Proof.
  induction l1 as [|a r1 IH]; intros [|b r2] S1 S2 P.
  - reflexivity.
  - apply Permutation_nil in P; discriminate.
  - apply Permutation_sym, Permutation_nil in P; discriminate.
  - apply StronglySorted_inv in S1 as [S1 F1]. apply StronglySorted_inv in S2 as [S2 F2].
    assert (a = b) as <-.
    { assert (Ha : In a (b :: r2)) by (eapply Permutation_in; [exact P|left; reflexivity]).
      assert (Hb : In b (a :: r1))
        by (eapply Permutation_in; [apply Permutation_sym, P|left; reflexivity]).
      destruct Ha as [Ha|Ha]; [auto|]. destruct Hb as [Hb|Hb]; [auto|].
      rewrite Forall_forall in F1, F2. apply String.leb_antisym; [apply F1|apply F2]; auto. }
    f_equal. apply IH; auto. eapply Permutation_cons_inv; exact P.
Qed.

Lemma sort_perm_eq l l' : Permutation l l' -> sort l = sort l'.
Proof.
  intros P. apply sorted_perm_eq; try apply sort_sorted.
  eapply perm_trans; [apply sort_perm|].
  eapply perm_trans; [exact P|apply Permutation_sym, sort_perm].
Qed.

Lemma filter_sorted (p : string -> bool) l :
  StronglySorted name_le l -> StronglySorted name_le (filter p l).
Proof.
  induction 1 as [|a r Hr IH Ha]; simpl; [constructor|].
  destruct (p a); [|exact IH]. constructor; [exact IH|].
  rewrite Forall_forall in *. intros x Hx. apply filter_In in Hx. apply Ha, Hx.
Qed.

Lemma perm_filter {A} (p : A -> bool) l l' :
  Permutation l l' -> Permutation (filter p l) (filter p l').
Proof.
  induction 1 as [|x l l' _ IH|x y l|l l' l'' _ IH1 _ IH2]; simpl.
  - auto.
  - destruct (p x); auto.
  - destruct (p x), (p y); auto using perm_swap.
  - eapply perm_trans; eauto.
Qed.

Lemma sort_filter (p : string -> bool) l : sort (filter p l) = filter p (sort l).
Proof.
  apply sorted_perm_eq; [apply sort_sorted|apply filter_sorted, sort_sorted|].
  eapply perm_trans; [apply sort_perm|]. apply perm_filter, Permutation_sym, sort_perm.
Qed.

(** *** Directory entries *)

Lemma dget_app d1 d2 n :
  dget (d1 ++ d2)%list n = match dget d1 n with Some x => Some x | None => dget d2 n end.
Proof.
  induction d1 as [|[k x] r IH]; simpl; [reflexivity|].
  destruct (String.eqb k n); [reflexivity|exact IH].
Qed.

Lemma dget_ddel d n m : dget (ddel d n) m = if String.eqb n m then None else dget d m.
Proof.
  induction d as [|[k x] r IH]; simpl.
  - destruct (String.eqb n m); reflexivity.
  - destruct (String.eqb_spec k n) as [->|Hkn]; simpl.
    + rewrite IH. destruct (String.eqb n m); reflexivity.
    + rewrite IH.
      destruct (String.eqb_spec n m), (String.eqb_spec k m); congruence.
Qed.

Lemma dget_dput d n x m : dget (dput d n x) m = if String.eqb n m then Some x else dget d m.
Proof.
  unfold dput. rewrite dget_app, dget_ddel. simpl.
  destruct (String.eqb n m); [reflexivity|destruct (dget d m); reflexivity].
Qed.

Lemma map_fst_ddel d n :
  map fst (ddel d n) = filter (fun k => negb (String.eqb k n)) (map fst d).
Proof.
  induction d as [|[k x] r IH]; simpl; [reflexivity|].
  destruct (String.eqb k n); simpl; [exact IH|f_equal; exact IH].
Qed.


Lemma dget_in_names d n x : dget d n = Some x -> In n (map fst d).
Proof.
  induction d as [|[k y] r IH]; simpl; [discriminate|].
  destruct (String.eqb_spec k n); auto.
Qed.



(** *** Python's string slicing *)

Lemma substring_full s : substring 0 (String.length s) s = s.
Proof. induction s as [|c r IH]; simpl; [reflexivity|f_equal; exact IH]. Qed.

Lemma substring_split s k : k <= String.length s ->
  (substring 0 k s ++ substring k (String.length s - k) s)%string = s.
Proof.
  revert k. induction s as [|c r IH]; intros [|k] Hk; simpl in *.
  - reflexivity.
  - lia.
  - f_equal. exact (substring_full r).
  - f_equal. apply IH. lia.
Qed.

(** [f[:-9] + ".disabled" == f] when [f.endswith(".disabled")]. *)
Lemma drop_last_disabled f :
  ends_with ".disabled" f = true -> (drop_last 9 f ++ ".disabled")%string = f.
Proof.
  unfold ends_with, drop_last. simpl (String.length ".disabled").
  intros H. apply andb_prop in H as [H1 H2].
  apply Nat.leb_le in H1. apply String.eqb_eq in H2.
  rewrite <- H2.
  pose proof (substring_split f (String.length f - 9)) as S.
  replace (String.length f - (String.length f - 9)) with 9 in S by lia.
  apply S. lia.
Qed.






(** *** [replace_at] *)




(** *** The body of [load_mods] *)

Lemma mod_entry_cases d f :
  mod_entry d f = [] \/
  exists it, mod_entry d f = [it] /\ orig it = f /\
    (exists data, dget d f = Some (File data)) /\
    (ends_with ".py" (label it) || ends_with ".skmod" (label it)) = true /\
    orig it = (if checked it then label it else label it ++ ".disabled")%string.
Proof.
  unfold mod_entry. destruct (dget d f) as [[data|e]|] eqn:E; auto.
  destruct (ends_with ".disabled" f) eqn:D; simpl.
  - destruct (ends_with ".py" (drop_last 9 f) || ends_with ".skmod" (drop_last 9 f)) eqn:K; auto.
    right. eexists; split; [reflexivity|]. simpl.
    repeat split; eauto. symmetry. apply drop_last_disabled, D.
  - destruct (ends_with ".py" f || ends_with ".skmod" f) eqn:K; auto.
    right. eexists; split; [reflexivity|]. simpl. repeat split; eauto.
Qed.

Lemma map_orig_entries d L :
  map orig (flat_map (mod_entry d) L) =
  filter (fun f => match mod_entry d f with [] => false | _ => true end) L.
Proof.
  induction L as [|f L IH]; simpl; [reflexivity|].
  destruct (mod_entry_cases d f) as [E|[it [E [Ho _]]]]; rewrite E; simpl.
  - exact IH.
  - rewrite Ho. f_equal. exact IH.
Qed.

Lemma mod_entry_ddel_other d f g :
  f <> g -> mod_entry (ddel d f) g = mod_entry d g.
Proof.
  intros H. unfold mod_entry. rewrite dget_ddel.
  destruct (String.eqb_spec f g); [contradiction|reflexivity].
Qed.

Lemma filter_entries_ddel d f L :
  flat_map (mod_entry (ddel d f)) (filter (fun k => negb (String.eqb k f)) L) =
  filter (fun it => negb (String.eqb (orig it) f)) (flat_map (mod_entry d) L).
Proof.
  induction L as [|g L IH]; simpl; [reflexivity|].
  rewrite filter_app.
  destruct (String.eqb_spec g f) as [->|Hgf]; simpl.
  - destruct (mod_entry_cases d f) as [E|[it [E [Ho _]]]]; rewrite E; simpl.
    + exact IH.
    + rewrite Ho, String.eqb_refl. simpl. exact IH.
  - rewrite (mod_entry_ddel_other d f g) by congruence. simpl. rewrite IH. f_equal.
    destruct (mod_entry_cases d g) as [E|[it [E [Ho _]]]]; rewrite E; simpl; [reflexivity|].
    rewrite Ho. destruct (String.eqb_spec g f); [contradiction|reflexivity].
Qed.

(** What [load_mods] lists after [os.remove] of one of its files: the
    same items, less the ones stored under that name. *)
Lemma load_mods_ddel d f :
  load_mods (Some (ddel d f)) =
  filter (fun it => negb (String.eqb (orig it) f)) (load_mods (Some d)).
Proof.
  simpl. rewrite map_fst_ddel, sort_filter. apply filter_entries_ddel.
Qed.

(** *** Properties *)

(** [load_mods] lists exactly the regular files of the directory whose
    name, less a final [".disabled"], ends in [".py"] or [".skmod"]: the item
    shows that name, is checked unless the file ends in [".disabled"], and
    stores the file's name; the items come in the order of the file names. *)
Theorem load_mods_items (d : dir) :
  (forall it, In it (load_mods (Some d)) ->
     (exists data, dget d (orig it) = Some (File data)) /\
     (ends_with ".py" (label it) || ends_with ".skmod" (label it)) = true /\
     orig it = (if checked it then label it else label it ++ ".disabled")%string) /\
  (forall f data, dget d f = Some (File data) ->
     let name := if ends_with ".disabled" f then drop_last 9 f else f in
     (ends_with ".py" name || ends_with ".skmod" name) = true ->
     In (mk_item name (negb (ends_with ".disabled" f)) f) (load_mods (Some d))) /\
  StronglySorted name_le (map orig (load_mods (Some d))).
Proof.
  simpl. split; [|split].
  - intros it Hit. apply in_flat_map in Hit as [f [_ Hf]].
    destruct (mod_entry_cases d f) as [E|[it' [E [Ho [Hd [Hk Hc]]]]]]; rewrite E in Hf;
      [destruct Hf|]. destruct Hf as [<-|[]]. split; [rewrite Ho; exact Hd|auto].
  - intros f data Hf Hk. apply in_flat_map. exists f. split.
    + eapply Permutation_in; [apply Permutation_sym, sort_perm|].
      exact (dget_in_names d f _ Hf).
    + unfold mod_entry. rewrite Hf. cbv zeta. rewrite Hk. left. reflexivity.
  - rewrite map_orig_entries. apply filter_sorted, sort_sorted.
Qed.



(** [remove_mod] on the selected item of a freshly loaded list asks for
    confirmation naming the file; on "No" nothing else happens; on "Yes" the
    file is removed and the reloaded list is the former one less the items
    stored under that file name, in the same order; when the system refuses
    the removal, the directory and the list stay and the error is shown. *)
Theorem remove_mod_effect (directory : string) (t : tab) (d : dir) (i : nat) (it : mod_item) (m : string) :
  tdir t = Some d -> titems t = load_mods (Some d) -> nth_error (titems t) i = Some it ->
  let q := ("Are you sure you want to delete '" ++ orig it ++ "'?")%string in
  remove_mod directory None (Some i) InstanceUi.No t = mk_tab (Some d) (titems t) (tboxes t ++ [q])%list /\
  remove_mod directory None (Some i) InstanceUi.Yes t =
    mk_tab (Some (ddel d (orig it)))
      (filter (fun it' => negb (String.eqb (orig it') (orig it))) (titems t))
      (tboxes t ++ [q])%list /\
  remove_mod directory (Some m) (Some i) InstanceUi.Yes t =
    mk_tab (Some d) (titems t) (tboxes t ++ [q; ("Failed to remove mod: " ++ m)%string])%list.
Proof.
  intros Ht Hl Hi q.
  assert (Hin : In it (load_mods (Some d))) by (rewrite <- Hl; exact (nth_error_In _ _ Hi)).
  destruct (proj1 (load_mods_items d) it Hin) as [[data Hf] _].
  unfold remove_mod. rewrite Hi. cbn [tdir titems tboxes]. rewrite Ht. fold q.
  unfold os_remove. rewrite Hf.
  split; [reflexivity|split].
  - rewrite load_mods_ddel, Hl. reflexivity.
  - cbn [os_err_str]. rewrite <- app_assoc. reflexivity.
Qed.



Lemma remove_mod_effect_witness :
  let d0 := [("b.py", File "B"); ("a.skmod.disabled", File "A"); ("notes.txt", File "N")] in
  let t0 := mk_tab (Some d0) (load_mods (Some d0)) [] in
  let q := "Are you sure you want to delete 'a.skmod.disabled'?" in
  nth_error (titems t0) 0 = Some (mk_item "a.skmod" false "a.skmod.disabled") /\
  remove_mod "/opt/plauncher/bin/mods" None (Some 0) InstanceUi.No t0 = mk_tab (Some d0) (titems t0) [q] /\
  remove_mod "/opt/plauncher/bin/mods" None (Some 0) InstanceUi.Yes t0 =
    mk_tab (Some (ddel d0 "a.skmod.disabled"))
      (filter (fun it' => negb (String.eqb (orig it') "a.skmod.disabled")) (titems t0)) [q] /\
  remove_mod "/opt/plauncher/bin/mods" (Some "[Errno 13] Permission denied") (Some 0) InstanceUi.Yes t0 =
    mk_tab (Some d0) (titems t0) [q; "Failed to remove mod: [Errno 13] Permission denied"].
Proof.
  intros d0 t0 q. split; [reflexivity|].
  exact (remove_mod_effect "/opt/plauncher/bin/mods" t0 d0 0 (mk_item "a.skmod" false "a.skmod.disabled")
           "[Errno 13] Permission denied" eq_refl eq_refl eq_refl).
Defined.

(** *** [add_mod] *)

Lemma ends_with_split (suf s : string) :
  ends_with suf s = true ->
  s = (substring 0 (String.length s - String.length suf) s ++ suf)%string.
Proof.
  unfold ends_with. intros H. apply andb_true_iff in H as [Hk He].
  apply Nat.leb_le in Hk. apply String.eqb_eq in He.
  pose proof (substring_split s (String.length s - String.length suf)) as Hs.
  replace (String.length s - (String.length s - String.length suf)) with (String.length suf)
    in Hs by lia.
  rewrite He in Hs. symmetry. apply Hs. lia.
Qed.

Lemma mod_name_not_disabled (s : string) :
  (ends_with ".py" s || ends_with ".skmod" s) = true -> ends_with ".disabled" s = false.
Proof.
  intros H. destruct (ends_with ".disabled" s) eqn:D; [exfalso|reflexivity].
  apply ends_with_split in D. set (q := substring _ _ s) in D.
  assert (Gq : String.get (8 + String.length q) s = Some "d"%char)
    by (rewrite D at 1; rewrite <- String.append_correct2; reflexivity).
  apply orb_true_iff in H as [H|H]; apply ends_with_split in H;
    set (p := substring _ _ s) in H.
  - assert (Gp : String.get (2 + String.length p) s = Some "y"%char)
      by (rewrite H at 1; rewrite <- String.append_correct2; reflexivity).
    assert (L : String.length s = String.length q + 9)
      by (rewrite D at 1; rewrite JsonFacts.str_length_app; reflexivity).
    assert (L' : String.length s = String.length p + 3)
      by (rewrite H at 1; rewrite JsonFacts.str_length_app; reflexivity).
    replace (2 + String.length p) with (8 + String.length q) in Gp by lia. congruence.
  - assert (Gp : String.get (5 + String.length p) s = Some "d"%char)
      by (rewrite H at 1; rewrite <- String.append_correct2; reflexivity).
    assert (Gp' : String.get (4 + String.length p) s = Some "o"%char)
      by (rewrite H at 1; rewrite <- String.append_correct2; reflexivity).
    assert (Gq' : String.get (7 + String.length q) s = Some "e"%char)
      by (rewrite D at 1; rewrite <- String.append_correct2; reflexivity).
    assert (L : String.length s = String.length q + 9)
      by (rewrite D at 1; rewrite JsonFacts.str_length_app; reflexivity).
    assert (L' : String.length s = String.length p + 6)
      by (rewrite H at 1; rewrite JsonFacts.str_length_app; reflexivity).
    replace (4 + String.length p) with (7 + String.length q) in Gp' by lia. congruence.
Qed.

Lemma in_load_mods (d : dir) (it : mod_item) :
  In it (load_mods (Some d)) <-> exists f, In f (map fst d) /\ In it (mod_entry d f).
Proof.
  unfold load_mods. rewrite in_flat_map. split; intros [f [Hf Hi]]; exists f; split; auto.
  - eapply Permutation_in; [apply sort_perm|exact Hf].
  - eapply Permutation_in; [apply Permutation_sym, sort_perm|exact Hf].
Qed.

(** Adding a mod file copies it into the directory under its base name,
    replacing a file of that name; the list is reloaded: it shows the new
    mod enabled when its name ends in [.py] or [.skmod], and every mod listed
    before under another file name (a disabled copy [name + ".disabled"]
    included, which then appears a second time under the same text). *)
Theorem add_mod_effect (directory file_path data : string) (t : tab) (d : dir) :
  file_path <> EmptyString -> tdir t = Some d ->
  (forall e, dget d (Paths.basename file_path) <> Some (Subdir e)) ->
  let name := Paths.basename file_path in
  let d' := dput d name (File data) in
  add_mod directory file_path (inl data) false None t =
    Some (mk_tab (Some d') (load_mods (Some d')) (tboxes t)) /\
  dget d' name = Some (File data) /\
  (forall n, n <> name -> dget d' n = dget d n) /\
  ((ends_with ".py" name || ends_with ".skmod" name) = true ->
   In (mk_item name true name) (load_mods (Some d'))) /\
  (forall it, In it (load_mods (Some d)) -> orig it <> name -> In it (load_mods (Some d'))).
Proof.
  intros Hp Ht Hs name d'.
  assert (Hg : forall n, dget d' n = if String.eqb name n then Some (File data) else dget d n)
    by (intros n; apply dget_dput).
  split; [|split; [|split; [|split]]].
  - unfold add_mod. destruct (String.eqb_spec file_path EmptyString); [contradiction|].
    rewrite Ht. fold name in Hs |- *.
    destruct (dget d name) as [[x|e]|]; [reflexivity| |reflexivity].
    exfalso. apply (Hs e). reflexivity.
  - rewrite Hg, String.eqb_refl. reflexivity.
  - intros n Hn. rewrite Hg. destruct (String.eqb_spec name n); [congruence|reflexivity].
  - intros Hk. apply in_load_mods. exists name. split.
    + apply (dget_in_names d' name (File data)). rewrite Hg, String.eqb_refl. reflexivity.
    + unfold mod_entry. rewrite Hg, String.eqb_refl. cbv zeta.
      rewrite (mod_name_not_disabled name Hk), Hk. left. reflexivity.
  - intros it Hi Ho. apply in_load_mods in Hi as [f [Hf Hi]]. apply in_load_mods.
    destruct (mod_entry_cases d f) as [E|[it' [E [Hof [[x Hx] _]]]]];
      [rewrite E in Hi; destruct Hi|].
    rewrite E in Hi. destruct Hi as [->|[]]. subst f.
    assert (Hd : dget d' (orig it) = dget d (orig it))
      by (rewrite Hg; destruct (String.eqb_spec name (orig it)); [congruence|reflexivity]).
    exists (orig it). split.
    + apply (dget_in_names d' (orig it) (File x)). rewrite Hd. exact Hx.
    + assert (Hm : mod_entry d' (orig it) = mod_entry d (orig it))
        by (unfold mod_entry; rewrite Hd; reflexivity).
      rewrite Hm, E. left. reflexivity.
Qed.

Lemma add_mod_effect_witness :
  let d0 := [("b.py.disabled", File "old"); ("notes.txt", File "N")] in
  let t0 := mk_tab (Some d0) (load_mods (Some d0)) [] in
  let d1 := dput d0 "b.py" (File "new") in
  add_mod "/opt/plauncher/bin/mods" "/home/u/Downloads/b.py" (inl "new") false None t0 =
    Some (mk_tab (Some d1) (load_mods (Some d1)) []) /\
  dget d1 "b.py" = Some (File "new") /\
  (forall n, n <> "b.py" -> dget d1 n = dget d0 n) /\
  ((ends_with ".py" "b.py" || ends_with ".skmod" "b.py") = true ->
   In (mk_item "b.py" true "b.py") (load_mods (Some d1))) /\
  (forall it, In it (load_mods (Some d0)) -> orig it <> "b.py" -> In it (load_mods (Some d1))).
Proof.
  intros d0 t0 d1.
  apply (add_mod_effect "/opt/plauncher/bin/mods" "/home/u/Downloads/b.py" "new" t0 d0).
  - discriminate.
  - reflexivity.
  - intros e. vm_compute. discriminate.
Defined.

End ModsFacts.

(** ** The instance list *)

Module InstanceUiFacts.
Import Json Registry InstanceUi InstanceUiSpec.

Lemma item_text_instance_obj n p : item_text (instance_obj n p) = inl n.
Proof. reflexivity. Qed.

Lemma instances_save wo v m : instances (save wo v m) = v.
Proof. unfold save. destruct (save_instances wo v (disk m)); reflexivity. Qed.

Lemma add_items_app l1 l2 ns1 :
  add_items l1 = (ns1, None) ->
  add_items (l1 ++ l2)%list = let '(ns2, e2) := add_items l2 in ((ns1 ++ ns2)%list, e2).
Proof.
  revert ns1. induction l1 as [|j r IH]; intros ns1; simpl.
  - intros [= <-]. destruct (add_items l2); reflexivity.
  - destruct (item_text j) as [n|e]; [|discriminate].
    destruct (add_items r) as [ns e] eqn:E. intros [= <- ->].
    rewrite (IH ns eq_refl). destruct (add_items l2); reflexivity.
Qed.

Lemma add_items_delete l ns k :
  add_items l = (ns, None) -> add_items (delete_at l k) = (delete_at ns k, None).
Proof.
  revert ns k. induction l as [|j r IH]; intros ns k; simpl.
  - intros [= <-]. destruct k; reflexivity.
  - destruct (item_text j) as [n|e] eqn:Ej; [|discriminate].
    destruct (add_items r) as [ns' e] eqn:E. intros [= <- ->].
    destruct k as [|k]; simpl; [exact E|].
    rewrite Ej, (IH ns' k eq_refl). reflexivity.
Qed.

Lemma add_items_length l ns : add_items l = (ns, None) -> List.length ns = List.length l.
Proof.
  revert ns. induction l as [|j r IH]; intros ns; simpl.
  - intros [= <-]. reflexivity.
  - destruct (item_text j); [|discriminate].
    destruct (add_items r) as [ns' e] eqn:E. intros [= <- ->]. simpl. f_equal. apply IH; reflexivity.
Qed.

Lemma refresh_append a l n p :
  shows a -> instances (reg a) = JArr l ->
  refresh_instances (JArr (l ++ [instance_obj n p])%list) = ((items a ++ [n])%list, None).
Proof.
  unfold shows, refresh_instances. intros Hs Hl. rewrite Hl in Hs. simpl in *.
  rewrite (add_items_app l _ _ Hs). reflexivity.
Qed.

(** [add_new_instance] with a chosen file appends an entry named after the
    file's base name to the registry (whether or not saving it succeeds)
    and to the list, which keeps showing the registry; no message box is
    shown. *)
Theorem add_new_instance_appends (wo : write_outcome) (p : string) (a : app) (l : list json) :
  p <> EmptyString -> shows a -> instances (reg a) = JArr l ->
  let '(a', e) := add_new_instance wo p a in
  e = None /\
  reg a' = save wo (JArr (l ++ [instance_obj (Paths.basename p) p])%list) (reg a) /\
  items a' = (items a ++ [Paths.basename p])%list /\ boxes a' = boxes a /\ shows a'.
Proof.
  intros Hp Hs Hl.
  assert (E : add_new_instance wo p a =
    (mk_app (save wo (JArr (l ++ [instance_obj (Paths.basename p) p])%list) (reg a))
            (items a ++ [Paths.basename p])%list (boxes a), None)).
  { unfold add_new_instance. destruct p as [|c r]; [congruence|].
    unfold add_instance. rewrite Hl. unfold after_refresh. rewrite instances_save.
    rewrite (refresh_append a l). reflexivity. exact Hs. exact Hl. }
  rewrite E. unfold shows. simpl. rewrite instances_save.
  repeat split; auto. exact (refresh_append a l _ _ Hs Hl).
Qed.

(** [remove_selected_instance] on row [row] of a list showing the registry
    asks for confirmation naming the item of that row; on "No" nothing else
    changes; on "Yes" the entry at [row] leaves the registry (whether or not
    saving succeeds) and the item at [row] leaves the list, which keeps
    showing the registry. *)
Theorem remove_selected_instance_effect (wo : write_outcome) (a : app) (l : list json) (row : nat) :
  shows a -> instances (reg a) = JArr l -> row < List.length (items a) ->
  let q := ("Are you sure you want to remove '" ++ nth row (items a) EmptyString ++ "'?"
             ++ String nl "This will not delete the files, only the launcher entry.")%string in
  remove_selected_instance wo (Some row) No a = (mk_app (reg a) (items a) (boxes a ++ [q])%list, None) /\
  remove_selected_instance wo (Some row) Yes a =
    (mk_app (save wo (JArr (delete_at l row)) (reg a)) (delete_at (items a) row)
            (boxes a ++ [q])%list, None) /\
  shows (fst (remove_selected_instance wo (Some row) Yes a)).
Proof.
  intros Hs Hl Hr q.
  pose proof Hs as Hs'. unfold shows, refresh_instances in Hs'. rewrite Hl in Hs'. simpl in Hs'.
  pose proof (add_items_length _ _ Hs') as Hlen.
  assert (E : remove_selected_instance wo (Some row) Yes a =
    (mk_app (save wo (JArr (delete_at l row)) (reg a)) (delete_at (items a) row)
            (boxes a ++ [q])%list, None)).
  { unfold remove_selected_instance. fold q. unfold show_box. cbn [reg items boxes].
    unfold remove_instance. rewrite Hl. simpl py_len. cbv beta iota.
    replace ((0 <=? Z.of_nat row)%Z && (Z.of_nat row <? Z.of_nat (List.length l))%Z) with true
      by (symmetry; apply andb_true_intro; split; [apply Z.leb_le|apply Z.ltb_lt]; lia).
    rewrite Nat2Z.id. unfold after_refresh. rewrite instances_save.
    unfold refresh_instances. simpl py_iter. cbv beta iota. rewrite (add_items_delete _ _ row Hs'). reflexivity. }
  split; [reflexivity|split; [exact E|]].
  rewrite E. unfold shows. simpl. rewrite instances_save.
  unfold refresh_instances. simpl py_iter. exact (add_items_delete _ _ row Hs').
Qed.

Lemma handle_download_finished_eq (wo : write_outcome) (name path : string) (a : app)
    (l : list json) :
  shows a -> instances (reg a) = JArr l ->
  handle_download_finished wo name path a =
    (mk_app (save wo (JArr (l ++ [instance_obj name path])%list) (reg a))
            (items a ++ [name])%list
            (boxes a ++ [("Downloaded and added instance: " ++ name)%string])%list, None).
Proof.
  intros Hs Hl. unfold handle_download_finished, add_instance. rewrite Hl.
  unfold after_refresh. rewrite instances_save, (refresh_append a l _ _ Hs Hl). reflexivity.
Qed.

(** [handle_download_finished] appends the downloaded instance to the
    registry and to the list, which keeps showing the registry, and shows
    the success message naming it. *)
Theorem handle_download_finished_appends (wo : write_outcome) (name path : string) (a : app)
    (l : list json) :
  shows a -> instances (reg a) = JArr l ->
  handle_download_finished wo name path a =
    (mk_app (save wo (JArr (l ++ [instance_obj name path])%list) (reg a))
            (items a ++ [name])%list
            (boxes a ++ [("Downloaded and added instance: " ++ name)%string])%list, None) /\
  shows (fst (handle_download_finished wo name path a)).
Proof.
  intros Hs Hl.
  pose proof (handle_download_finished_eq wo name path a l Hs Hl) as E.
  split; [exact E|]. rewrite E. unfold shows. simpl. rewrite instances_save.
  exact (refresh_append a l _ _ Hs Hl).
Qed.

(** A registry whose loaded value is not a list is never changed: every
    [add_instance] and [remove_instance] raises or does nothing, and the
    file is not rewritten; [refresh_instances] shows no instance. *)
Theorem non_list_registry_frozen (m : manager) :
  (forall l, instances m <> JArr l) ->
  fst (refresh_instances (instances m)) = [] /\
  forall wo o, fst (step wo o m) = m.
Proof.
  intros H. split.
  - unfold refresh_instances. destruct (instances m) as [|b|z|s|l|kvs] eqn:E; simpl; auto.
    + destruct (list_ascii_of_string s); reflexivity.
    + exfalso. exact (H l eq_refl).
    + destruct kvs; reflexivity.
  - intros wo [n p|i]; simpl.
    + unfold add_instance. destruct (instances m) eqn:E; try reflexivity.
      exfalso. exact (H _ eq_refl).
    + unfold remove_instance. destruct (py_len (instances m)); [|reflexivity].
      destruct (_ && _)%bool; [|reflexivity].
      destruct (instances m) eqn:E; try reflexivity. exfalso. exact (H _ eq_refl).
Qed.

Lemma add_new_instance_appends_witness :
  let a := mk_app (mk_manager (JArr []) None []) [] [] in
  add_new_instance WriteOk "/opt/games/krompir.bin" a =
    (mk_app (save WriteOk (JArr [instance_obj "krompir.bin" "/opt/games/krompir.bin"])
               (mk_manager (JArr []) None []))
            ["krompir.bin"] [], None) /\
  (let '(a', e) := add_new_instance WriteOk "/opt/games/krompir.bin" a in
   e = None /\
   reg a' = save WriteOk (JArr ([] ++ [instance_obj (Paths.basename "/opt/games/krompir.bin")
                                          "/opt/games/krompir.bin"])%list) (reg a) /\
   items a' = (items a ++ [Paths.basename "/opt/games/krompir.bin"])%list /\
   boxes a' = boxes a /\ shows a').
Proof.
  intros a. split; [reflexivity|].
  apply (add_new_instance_appends WriteOk "/opt/games/krompir.bin" a []).
  - discriminate.
  - reflexivity.
  - reflexivity.
Defined.

Lemma remove_selected_instance_effect_witness :
  let l := [instance_obj "a" "/g/a"; instance_obj "b" "/g/b"] in
  let a := mk_app (mk_manager (JArr l) None []) ["a"; "b"] [] in
  let q := ("Are you sure you want to remove 'b'?" ++ String nl
             "This will not delete the files, only the launcher entry.")%string in
  remove_selected_instance WriteOk (Some 1) No a = (mk_app (reg a) ["a"; "b"] [q], None) /\
  remove_selected_instance WriteOk (Some 1) Yes a =
    (mk_app (save WriteOk (JArr [instance_obj "a" "/g/a"]) (reg a)) ["a"] [q], None) /\
  shows (fst (remove_selected_instance WriteOk (Some 1) Yes a)).
Proof.
  intros l a q.
  exact (remove_selected_instance_effect WriteOk a l 1 eq_refl eq_refl (le_n 2)).
Defined.

Lemma handle_download_finished_appends_witness :
  let a := mk_app (mk_manager (JArr []) None []) [] [] in
  handle_download_finished WriteOk "Skakavi Krompir v1" "/d/Skakavi-Krompir-Linux" a =
    (mk_app (save WriteOk (JArr [instance_obj "Skakavi Krompir v1" "/d/Skakavi-Krompir-Linux"])
               (reg a))
            ["Skakavi Krompir v1"] ["Downloaded and added instance: Skakavi Krompir v1"], None) /\
  shows (fst (handle_download_finished WriteOk "Skakavi Krompir v1" "/d/Skakavi-Krompir-Linux" a)).
Proof.
  intros a. exact (handle_download_finished_appends WriteOk _ _ a [] eq_refl eq_refl).
Defined.

Lemma non_list_registry_frozen_witness :
  let m := init ReadOk (Some "{}") in
  instances m = JObj [] /\
  fst (refresh_instances (instances m)) = [] /\
  forall wo o, fst (step wo o m) = m.
Proof.
  intros m. split; [reflexivity|].
  apply non_list_registry_frozen. intros l. vm_compute. discriminate.
Defined.

End InstanceUiFacts.

(** ** From a finished download to a launch *)

Module DownloadFlowFacts.
Import Downloader DownloaderSpec.

Lemma loop_names_file (q name : string) (acts : list action) :
  forallb loop_action acts = true -> Forall (names_file q name) acts.
Proof.
  induction acts as [|a acts IH]; simpl; [constructor|].
  intros H. apply andb_true_iff in H as [H1 H2].
  constructor; [|exact (IH H2)].
  destruct a as [| | | | |[]]; try discriminate; exact I.
Qed.

Lemma in_events (o : outcome) (e : event) : In e (events o) -> In (Emit e) (actions o).
Proof.
  unfold events. intros H. apply in_flat_map in H as [a [Ha He]].
  destruct a; try contradiction. destruct He as [<-|[]]. exact Ha.
Qed.

Ltac names_file_tac :=
  repeat first
    [ apply Forall_app; split
    | apply Forall_cons
    | apply Forall_nil
    | exact I
    | reflexivity
    | split; reflexivity ].

Lemma run_names_file (E : env) (url asset tag : string) (dest0 : option bytes) :
  Forall (names_file (path_join (base_dir E) asset) ("Skakavi Krompir " ++ tag))
         (actions (run E url asset tag dest0)).
Proof.
  unfold run, fail.
  destruct (makedirs_fault E); [cbn [actions]; names_file_tac|].
  destruct (get_result E) as [e|r]; [cbn [actions]; names_file_tac|].
  destruct (http_error r); [cbn [actions]; names_file_tac|].
  destruct (match content_length r with None => Some 0%Z | Some h => py_int h end) as [t|];
    [|cbn [actions]; names_file_tac].
  destruct (open_fault E); [cbn [actions]; names_file_tac|].
  destruct (chunk_loop t (write_fault E) 0 0%Z (body r)) as [[acts w] ex] eqn:Hl.
  destruct (DownloaderFacts.chunk_loop_facts t (write_fault E) (body r) 0 0%Z acts w ex Hl)
    as (Ha & _).
  pose proof (loop_names_file (path_join (base_dir E) asset) ("Skakavi Krompir " ++ tag) acts Ha)
    as Hf.
  destruct ex; [cbn [actions]; names_file_tac; exact Hf|].
  destruct (body_fault r); [cbn [actions]; names_file_tac; exact Hf|].
  destruct (win32 E); [|destruct (chmod_fault E)]; cbn [actions]; names_file_tac; exact Hf.
Qed.


Lemma chunk_loop_complete (t : Z) (wf : option (nat * string)) (cs : list bytes) :
  forall k d acts w, chunk_loop t wf k d cs = (acts, w, None) -> w = List.concat cs.
Proof.
  induction cs as [|c cs IH]; intros k d acts w H; simpl in H.
  - injection H as _ <-. reflexivity.
  - destruct c as [|b c]; [exact (IH k d acts w H)|].
    destruct (write_raises wf k); [discriminate|].
    destruct (chunk_loop t wf (S k) (d + Z.of_nat (List.length (b :: c)))%Z cs)
      as [[a w'] ex'] eqn:E.
    injection H as _ <- ->. simpl. f_equal. f_equal. exact (IH _ _ _ _ E).
Qed.

Lemma not_in_loop_emits (acts : list action) (n p : string) :
  forallb loop_action acts = true -> ~ In (Finished n p) (emits acts).
Proof.
  intros H. rewrite (DownloaderFacts.loop_emits acts H). intros Hin.
  apply in_map_iff in Hin as [x [Hx _]]. discriminate.
Qed.

Lemma finished_not_in_fail (acts : list action) (n p msg : string) :
  forallb loop_action acts = true -> forall pre post,
  forallb (fun a => match a with Emit _ => false | _ => true end) (pre ++ post)%list = true ->
  ~ In (Finished n p) (emits (pre ++ acts ++ post ++ [Emit (Error msg)])%list).
Proof.
  intros Ha pre post Hpp. rewrite !DownloaderFacts.emits_app.
  rewrite forallb_app in Hpp. apply andb_true_iff in Hpp as [H1 H2].
  assert (Hq : forall q, forallb (fun a => match a with Emit _ => false | _ => true end) q = true ->
                 emits q = []).
  { induction q as [|x q IH]; [reflexivity|]. simpl. intros H.
    apply andb_true_iff in H as [Hx Hq]. destruct x; try discriminate; exact (IH Hq). }
  rewrite (Hq _ H1), (Hq _ H2). simpl. intros H.
  apply in_app_or in H as [H|[H|[]]]; [|discriminate].
  exact (not_in_loop_emits acts n p Ha H).
Qed.

(** A run that reports [finished] leaves the destination file holding
    exactly the body the server sent, and, on a system other than Windows,
    has made that file executable ([os.chmod(file_path, 0o755)]). *)
Theorem download_success_file (E : env) (url asset tag : string) (dest0 : option bytes)
    (n p : string) :
  In (Finished n p) (events (run E url asset tag dest0)) ->
  exists r, get_result E = inr r /\
    dest (run E url asset tag dest0) = Some (List.concat (body r)) /\
    (win32 E = false -> In (Chmod p 493%Z) (actions (run E url asset tag dest0))).
Proof.
  intros Hin. pose proof (in_events _ _ Hin) as Hin'.
  pose proof (run_names_file E url asset tag dest0) as Hnf.
  rewrite Forall_forall in Hnf. destruct (Hnf _ Hin') as [_ Hp]. clear Hnf Hin'. subst p.
  revert Hin. rewrite DownloaderFacts.events_emits. unfold run, fail.
  destruct (makedirs_fault E); [simpl; intros [H|[]]; discriminate|].
  destruct (get_result E) as [e|r]; [simpl; intros [H|[]]; discriminate|].
  destruct (http_error r); [simpl; intros [H|[]]; discriminate|].
  destruct (match content_length r with None => Some 0%Z | Some h => py_int h end) as [t|];
    [|simpl; intros [H|[]]; discriminate].
  destruct (open_fault E); [simpl; intros [H|[]]; discriminate|].
  destruct (chunk_loop t (write_fault E) 0 0%Z (body r)) as [[acts w] ex] eqn:Hl.
  destruct (DownloaderFacts.chunk_loop_facts t (write_fault E) (body r) 0 0%Z acts w ex Hl)
    as (Ha & _).
  destruct ex as [e|].
  { cbn [actions]. intros H. exfalso.
    exact (finished_not_in_fail acts _ _ e Ha
             [MakeDirs (base_dir E); HttpGet url; OpenWb (path_join (base_dir E) asset)] []
             eq_refl H). }
  pose proof (chunk_loop_complete _ _ _ _ _ _ _ Hl) as Hw. subst w.
  destruct (body_fault r).
  { cbn [actions]. intros H. exfalso.
    exact (finished_not_in_fail acts _ _ _ Ha
             [MakeDirs (base_dir E); HttpGet url; OpenWb (path_join (base_dir E) asset)] []
             eq_refl H). }
  destruct (win32 E) eqn:Hwin; [|destruct (chmod_fault E)].
  - intros _. exists r. split; [reflexivity|]. split; [reflexivity|]. discriminate.
  - cbn [actions]. intros H. exfalso. rewrite <- !app_assoc in H.
    exact (finished_not_in_fail acts _ _ _ Ha
             [MakeDirs (base_dir E); HttpGet url; OpenWb (path_join (base_dir E) asset)]
             [Chmod (path_join (base_dir E) asset) 493%Z] eq_refl H).
  - intros _. exists r. split; [reflexivity|]. split; [reflexivity|]. intros _.
    cbn [actions]. apply in_or_app. right. apply in_or_app. left. left. reflexivity.
Qed.

Lemma download_success_file_witness :
  let r := mk_response 200 "OK" "https://example.org/a" (Some "3")
             [[Byte.x01]; []; [Byte.x02; Byte.x03]] None in
  let E := mk_env "/opt/plauncher/bin" None (inr r) None None false None in
  In (Finished "Skakavi Krompir v1" "/opt/plauncher/bin/krompir.bin")
     (events (run E "https://example.org/a" "krompir.bin" "v1" None)) /\
  exists r', get_result E = inr r' /\
    dest (run E "https://example.org/a" "krompir.bin" "v1" None) =
      Some (List.concat (body r')) /\
    (win32 E = false ->
     In (Chmod "/opt/plauncher/bin/krompir.bin" 493%Z)
        (actions (run E "https://example.org/a" "krompir.bin" "v1" None))).
Proof.
  intros r E.
  assert (H : In (Finished "Skakavi Krompir v1" "/opt/plauncher/bin/krompir.bin")
     (events (run E "https://example.org/a" "krompir.bin" "v1" None))) by (vm_compute; tauto).
  split; [exact H|].
  exact (download_success_file E "https://example.org/a" "krompir.bin" "v1" None _ _ H).
Defined.

Lemma entry_fields_instance_obj (n p : string) :
  Supervisor.entry_fields (Registry.instance_obj n p) = Some (n, p).
Proof. reflexivity. Qed.

(** A download that reports [finished] with [(name, path)]: the name is
    ["Skakavi Krompir " + version_tag] and the path is [base_dir + "/" +
    asset_name] (for an asset name without a slash);
    [handle_download_finished] adds that entry to the registry and to the
    list; selecting the new row and launching it, with no process created
    yet, runs [setsid path] in [base_dir]. *)
Theorem downloaded_instance_launches (E : env) (url asset tag : string) (dest0 : option bytes)
    (n p : string) (wo : Registry.write_outcome) (a : InstanceUi.app) (l : list Json.json)
    (lE : Supervisor.launch_env) :
  In (Finished n p) (events (run E url asset tag dest0)) ->
  base_dir E <> EmptyString -> ends_with_slash (base_dir E) = false ->
  PathsSpec.has_slash asset = false ->
  InstanceUiSpec.shows a -> Registry.instances (InstanceUi.reg a) = Json.JArr l ->
  let a' := fst (InstanceUi.handle_download_finished wo n p a) in
  n = ("Skakavi Krompir " ++ tag)%string /\
  p = (base_dir E ++ String "/" asset)%string /\
  InstanceUi.items a' = (InstanceUi.items a ++ [n])%list /\
  Registry.instances (InstanceUi.reg a') = Json.JArr (l ++ [Registry.instance_obj n p])%list /\
  (forall st, Supervisor.process st = None -> Supervisor.wd_exists lE = true ->
     Supervisor.entries st = (l ++ [Registry.instance_obj n p])%list ->
     Supervisor.selected st = Some (List.length l) ->
     let st' := fst (Supervisor.launch_instance lE st) in
     Supervisor.calls st' = (Supervisor.calls st ++ [Supervisor.Spawn "setsid" [p]])%list /\
     Supervisor.process st' =
       Some (Supervisor.mk_qprocess Supervisor.Starting 0 (base_dir E) n)).
Proof.
  intros Hin Hd Hs Hb Hsh Hl a'.
  pose proof (run_names_file E url asset tag dest0) as Hf.
  rewrite Forall_forall in Hf. specialize (Hf _ (in_events _ _ Hin)). destruct Hf as [Hn Hp].
  destruct (PathsFacts.join_dirname_basename (base_dir E) asset Hd Hs Hb) as (Hj & Hdir & _).
  assert (Ha' : a' = InstanceUi.mk_app
                       (Registry.save wo (Json.JArr (l ++ [Registry.instance_obj n p])%list)
                          (InstanceUi.reg a))
                       (InstanceUi.items a ++ [n])%list
                       (InstanceUi.boxes a ++ [("Downloaded and added instance: " ++ n)%string])%list).
  { unfold a'. rewrite (InstanceUiFacts.handle_download_finished_eq wo n p a l Hsh Hl).
    reflexivity. }
  rewrite Ha'. cbn [InstanceUi.items InstanceUi.reg].
  rewrite InstanceUiFacts.instances_save.
  split; [exact Hn|]. split; [rewrite Hp; exact Hj|]. split; [reflexivity|]. split; [reflexivity|].
  intros st Hpr Hw He Hsel.
  assert (Hnth : nth_error (Supervisor.entries st) (List.length l) = Some (Registry.instance_obj n p)).
  { rewrite He, nth_error_app2 by lia. rewrite Nat.sub_diag. reflexivity. }
  assert (Hdp : Supervisor.dirname p = base_dir E) by (rewrite Hp; exact Hdir).
  unfold Supervisor.launch_instance. rewrite Hsel, Hnth, entry_fields_instance_obj.
  cbn [Supervisor.process Supervisor.set_status Supervisor.print Supervisor.append_log].
  rewrite Hpr. cbn [Supervisor.q_state Supervisor.q_pid Supervisor.q_label]. rewrite Hw, Hdp.
  split; reflexivity.
Qed.

Lemma downloaded_instance_launches_witness :
  let r := mk_response 200 "OK" "https://example.org/a" None [[Byte.x7f; Byte.x45]] None in
  let E := quiet_env r in
  let n := "Skakavi Krompir v1" in
  let p := "/opt/plauncher/bin/Skakavi-Krompir-Linux" in
  let a := InstanceUi.mk_app (Registry.mk_manager (Json.JArr []) None []) [] [] in
  let a' := fst (InstanceUi.handle_download_finished Registry.WriteOk n p a) in
  In (Finished n p) (events (run E "https://example.org/a" "Skakavi-Krompir-Linux" "v1" None)) /\
  n = ("Skakavi Krompir " ++ "v1")%string /\
  p = (base_dir E ++ String "/" "Skakavi-Krompir-Linux")%string /\
  InstanceUi.items a' = [n] /\
  Registry.instances (InstanceUi.reg a') = Json.JArr [Registry.instance_obj n p] /\
  (forall st, Supervisor.process st = None ->
     Supervisor.wd_exists (Supervisor.mk_launch_env true false) = true ->
     Supervisor.entries st = [Registry.instance_obj n p] ->
     Supervisor.selected st = Some 0 ->
     let st' := fst (Supervisor.launch_instance (Supervisor.mk_launch_env true false) st) in
     Supervisor.calls st' = (Supervisor.calls st ++ [Supervisor.Spawn "setsid" [p]])%list /\
     Supervisor.process st' =
       Some (Supervisor.mk_qprocess Supervisor.Starting 0 (base_dir E) n)).
Proof.
  intros r E n p a a'.
  assert (Hin : In (Finished n p)
                  (events (run E "https://example.org/a" "Skakavi-Krompir-Linux" "v1" None)))
    by (vm_compute; left; reflexivity).
  split; [exact Hin|].
  exact (downloaded_instance_launches E "https://example.org/a" "Skakavi-Krompir-Linux" "v1" None
           n p Registry.WriteOk a [] (Supervisor.mk_launch_env true false)
           Hin ltac:(discriminate) eq_refl eq_refl eq_refl eq_refl).
Defined.

End DownloadFlowFacts.

(** ** The [started] slot *)

Module SupervisorLabelFacts.
Import Json Supervisor.

(** A launch that starts a process, followed by its [started] signal,
    leaves the process [Running] in the directory of the launched file, and
    the status reads ["Running: "] followed by the name captured when the
    [QProcess] was created: the launched instance's name on the first
    launch, but on a later launch (the global [process] being reused once
    the previous run ended) the name of the instance launched first. *)
Theorem started_status_label (E : launch_env) (st : launcher) (row : nat) (inst : json)
    (name path : string) (pid : Z) :
  selected st = Some row -> nth_error (entries st) row = Some inst ->
  entry_fields inst = Some (name, path) ->
  (forall p, process st = Some p -> q_state p = NotRunning) ->
  (wd_exists E = true \/ makedirs_fails E = false) ->
  let label := match process st with None => name | Some p => q_label p end in
  let st' := on_signal (Started pid) (fst (launch_instance E st)) in
  status st' = ("Running: " ++ label)%string /\
  process st' = Some (mk_qprocess Running pid (dirname path) label).
Proof.
  intros Hsel Hnth Hef Hnr Hwd label st'.
  unfold st', label, launch_instance. rewrite Hsel, Hnth, Hef.
  cbn [process set_status print append_log].
  destruct (process st) as [p|] eqn:Hp.
  - rewrite (Hnr p eq_refl).
    destruct (wd_exists E); [|destruct (makedirs_fails E); [destruct Hwd; discriminate|]];
      split; reflexivity.
  - destruct (wd_exists E); [|destruct (makedirs_fails E); [destruct Hwd; discriminate|]];
      split; reflexivity.
Qed.

Lemma started_status_label_witness :
  let p0 := mk_qprocess NotRunning 41 "/games/a" "a" in
  let st := mk_launcher (Some p0) "Finished" None (Some 1)
              [Registry.instance_obj "a" "/games/a/run"; Registry.instance_obj "b" "/games/b/run"]
              [] [] in
  let st' := on_signal (Started 42) (fst (launch_instance (mk_launch_env true false) st)) in
  status st' = "Running: a" /\
  process st' = Some (mk_qprocess Running 42 (dirname "/games/b/run") "a").
Proof.
  intros p0 st st'.
  exact (started_status_label (mk_launch_env true false) st 1
           (Registry.instance_obj "b" "/games/b/run") "b" "/games/b/run" 42
           eq_refl eq_refl eq_refl
           ltac:(intros p Hp; injection Hp as <-; reflexivity)
           (or_introl eq_refl)).
Defined.

End SupervisorLabelFacts.

(** ** [RepoBrowserDialog.install_version] *)

Module InstallFacts.
Import Json Downloader Install.

Lemma write_all_facts (wf : option (nat * string)) (cs : list bytes) :
  forall k acts w ex, write_all wf k cs = (acts, w, ex) ->
  (exists rest, List.concat cs = (w ++ rest)%list) /\ (ex = None -> w = List.concat cs).
Proof.
  induction cs as [|c cs IH]; intros k acts w ex H; simpl in H.
  - injection H as <- <- <-. split; [exists []; reflexivity|reflexivity].
  - destruct (write_raises wf k) as [e|].
    + injection H as <- <- <-. split; [exists (c ++ List.concat cs)%list; reflexivity|discriminate].
    + destruct (write_all wf (S k) cs) as [[a w'] ex'] eqn:E. injection H as <- <- <-.
      destruct (IH (S k) a w' ex' E) as [[rest Hr] Hn]. split.
      * exists rest. simpl. rewrite Hr, app_assoc. reflexivity.
      * intros He. simpl. rewrite (Hn He). reflexivity.
Qed.

(** [install_version] on a version with an [id] and a [str] [filename]
    requests [REPO_API_URL + "/download/" + str(id)]; the only file it
    writes is [os.path.join(target_dir, filename)], which is [filename]
    itself when that starts with a slash; the file holds a prefix of the
    body, the whole body when the install succeeds, and stays in place when
    the download fails part way; every failure is shown as ["Failed to
    download mod: " + str(e)]. *)
Theorem install_version_target (E : ienv) (dir : string) (idx : Z) (vs : list json)
    (kvs : list (string * json)) (vid : json) (vid_text filename : string) (o : ioutcome) :
  (0 <= idx)%Z -> nth_error vs (Z.to_nat idx) = Some (JObj kvs) ->
  Supervisor.dict_get kvs "id" = Some vid ->
  Supervisor.dict_get kvs "filename" = Some (JStr filename) ->
  id_text vid = Some vid_text ->
  install_version E dir idx vs = Some o ->
  hd_error (iactions o) = Some (HttpGet (repo_api_url ++ "/download/" ++ vid_text)) /\
  (forall t w, itarget o = Some (t, w) ->
     t = path_join dir filename /\
     (PathsSpec.starts_with_slash filename = true -> t = filename) /\
     exists r rest, iget E = inr r /\ List.concat (body r) = (w ++ rest)%list /\
       (iresult_of o = Installed filename -> rest = [])) /\
  (iresult_of o = Installed filename \/
   exists e, iresult_of o = InstallFailed ("Failed to download mod: " ++ e)).
Proof.
  intros Hidx Hn Hid Hf Ht Ho.
  unfold install_version in Ho.
  replace (idx <? 0)%Z with false in Ho by (symmetry; apply Z.ltb_ge; exact Hidx).
  rewrite Hn, Hid, Hf, Ht in Ho.
  assert (Habs : PathsSpec.starts_with_slash filename = true -> path_join dir filename = filename).
  { unfold path_join. destruct filename as [|c r]; [discriminate|]. simpl. intros ->. reflexivity. }
  destruct (iget E) as [e|r] eqn:Hg.
  { injection Ho as <-. split; [reflexivity|]. split; [discriminate|]. right; eexists; reflexivity. }
  destruct (http_error r) as [e|].
  { injection Ho as <-. split; [reflexivity|]. split; [discriminate|]. right; eexists; reflexivity. }
  destruct (iopen_fault E) as [e|].
  { injection Ho as <-. split; [reflexivity|]. split; [discriminate|]. right; eexists; reflexivity. }
  destruct (write_all (iwrite_fault E) 0 (body r)) as [[acts w] ex] eqn:Hw.
  destruct (write_all_facts _ _ _ _ _ _ Hw) as [[rest Hr] Hnone].
  destruct ex as [e|]; [|destruct (body_fault r) as [e|]]; injection Ho as <-;
    (split; [reflexivity|]); cbn [itarget iresult_of].
  - split; [|right; eexists; reflexivity].
    intros t w' [= <- <-]. split; [reflexivity|]. split; [exact Habs|].
    exists r, rest. split; [reflexivity|]. split; [exact Hr|discriminate].
  - split; [|right; eexists; reflexivity].
    intros t w' [= <- <-]. split; [reflexivity|]. split; [exact Habs|].
    exists r, rest. split; [reflexivity|]. split; [exact Hr|discriminate].
  - split; [|left; reflexivity].
    intros t w' [= <- <-]. split; [reflexivity|]. split; [exact Habs|].
    exists r, []. split; [reflexivity|]. split; [|reflexivity].
    rewrite List.app_nil_r. symmetry. exact (Hnone eq_refl).
Qed.

Lemma install_version_target_witness :
  let v := JObj [("id", JInt 7); ("filename", JStr "/home/u/.bashrc")] in
  let r := mk_response 200 "OK" "http://localhost:8000/download/7" None
             [[Byte.x61]; [Byte.x62]] None in
  let E := mk_ienv (inr r) None (Some (1, "No space left on device")) in
  exists o, install_version E "/mods" 0 [v] = Some o /\
  hd_error (iactions o) = Some (HttpGet (repo_api_url ++ "/download/" ++ "7")) /\
  (forall t w, itarget o = Some (t, w) ->
     t = path_join "/mods" "/home/u/.bashrc" /\
     (PathsSpec.starts_with_slash "/home/u/.bashrc" = true -> t = "/home/u/.bashrc") /\
     exists r rest, iget E = inr r /\ List.concat (body r) = (w ++ rest)%list /\
       (iresult_of o = Installed "/home/u/.bashrc" -> rest = [])) /\
  (iresult_of o = Installed "/home/u/.bashrc" \/
   exists e, iresult_of o = InstallFailed ("Failed to download mod: " ++ e)).
Proof.
  intros v r E. eexists. split; [reflexivity|].
  apply (install_version_target E "/mods" 0 [v] [("id", JInt 7); ("filename", JStr "/home/u/.bashrc")] (JInt 7) "7" "/home/u/.bashrc");
    try reflexivity.
Defined.



Lemma version_items_all (l : list json) :
  Forall (fun v => exists t, version_text v = Some (inl t)) l ->
  exists its, version_items l = Some (its, None) /\ map snd its = l /\
    map (fun it => version_text (snd it)) its = map (fun it => Some (inl (fst it))) its.
Proof.
  induction 1 as [|v r [t Ht] _ IH]; cbn [version_items].
  - exists []. split; [reflexivity|]. split; reflexivity.
  - destruct IH as (its & Hi & Hs & Ht'). rewrite Ht, Hi.
    exists ((t, v) :: its). split; [reflexivity|]. cbn [map fst snd].
    rewrite Hs, Ht', Ht. split; reflexivity.
Qed.

(** [fetch_versions] empties the version list before the request: when the
    request or its decoding fails, the list stays empty (the former
    [self.versions] are kept).  When every version of the JSON list it gets
    has a text, the list holds one item per version, in order, its data
    being that version (the value [install_version] reads at the selected
    index) and its text ["<version_number> (<filename>)"]. *)
Theorem fetch_versions_list (versions : json) (e : string) (l : list json) :
  Forall (fun v => exists t, version_text v = Some (inl t)) l ->
  fetch_versions (inl e) versions = Some (versions, [], Some (FetchMsg e)) /\
  exists its, fetch_versions (inr (JArr l)) versions = Some (JArr l, its, None) /\
    map snd its = l /\
    Forall (fun it => version_text (snd it) = Some (inl (fst it))) its.
Proof.
  intros Hl. split; [reflexivity|].
  destruct (version_items_all l Hl) as (its & Hi & Hs & Ht).
  exists its. unfold fetch_versions. cbn [InstanceUi.py_iter]. rewrite Hi.
  split; [reflexivity|]. split; [exact Hs|].
  clear Hi Hs Hl. induction its as [|[t v] r IH]; constructor.
  - injection Ht as H _. exact H.
  - injection Ht as _ H. exact (IH H).
Qed.

Lemma fetch_versions_list_witness :
  let v1 := JObj [("id", JInt 7); ("version_number", JStr "1.0"); ("filename", JStr "fly.py")] in
  let v2 := JObj [("id", JInt 9); ("version_number", JInt 2); ("filename", JStr "fly.skmod")] in
  Forall (fun v => exists t, version_text v = Some (inl t)) [v1; v2] /\
  fetch_versions (inl "500 Server Error") JNull = Some (JNull, [], Some (FetchMsg "500 Server Error")) /\
  exists its, fetch_versions (inr (JArr [v1; v2])) JNull = Some (JArr [v1; v2], its, None) /\
    map snd its = [v1; v2] /\
    Forall (fun it => version_text (snd it) = Some (inl (fst it))) its.
Proof.
  intros v1 v2.
  assert (H : Forall (fun v => exists t, version_text v = Some (inl t)) [v1; v2]).
  { constructor; [eexists; reflexivity|]. constructor; [eexists; reflexivity|]. constructor. }
  split; [exact H|].
  exact (fetch_versions_list JNull "500 Server Error" [v1; v2] H).
Defined.

End InstallFacts.

(** ** [VersionPicker] *)

Module PickerFacts.
Import Json Picker.

Lemma find_text_absent (target : string) (l : list (string * json)) :
  forall i, ~ In target (map fst l) -> find_text target l i = None.
Proof.
  induction l as [|[t x] r IH]; intros i H; simpl in *; [reflexivity|].
  destruct (String.eqb_spec t target); [exfalso; auto|]. apply IH. auto.
Qed.

Lemma find_text_first (target : string) (pre post : list (string * json)) (x : json) :
  forall i, ~ In target (map fst pre) ->
  find_text target (pre ++ (target, x) :: post)%list i = Some (i + List.length pre).
Proof.
  induction pre as [|[t y] r IH]; intros i H; simpl in *.
  - rewrite String.eqb_refl, Nat.add_0_r. reflexivity.
  - destruct (String.eqb_spec t target); [exfalso; auto|].
    rewrite IH by auto. f_equal. lia.
Qed.

Lemma new_picker_index (w : bool) (releases : json) (p : picker) :
  new_picker w releases = Some p -> asset_index p = auto_select_asset w (assets p).
Proof.
  unfold new_picker.
  destruct (InstanceUi.py_iter releases); [|discriminate].
  destruct (combo_items "tag_name" l); [|discriminate].
  destruct (update_assets l0); [|discriminate].
  intros [= <-]. reflexivity.
Qed.

(** Until the user changes it, the file the download dialog offers is
    the first asset of the release named ["Skakavi-Krompir-Linux"] (on
    Windows ["Skakavi-krompir-Windows.exe"]), or the first asset when none
    has that name, and nothing when the release has no asset. *)
Theorem picker_default_asset (w : bool) (releases : json) (p : picker) :
  new_picker w releases = Some p ->
  let target := if w then "Skakavi-krompir-Windows.exe" else "Skakavi-Krompir-Linux" in
  (forall pre x post, assets p = (pre ++ (target, x) :: post)%list ->
     ~ In target (map fst pre) -> snd (get_selected p) = Some x) /\
  (~ In target (map fst (assets p)) -> snd (get_selected p) = option_map snd (hd_error (assets p))).
Proof.
  intros Hp target. pose proof (new_picker_index w releases p Hp) as Hi.
  unfold get_selected. cbn [snd]. rewrite Hi. unfold auto_select_asset. fold target.
  split.
  - intros pre x post Ha Hn. rewrite Ha, (find_text_first target pre post x 0 Hn).
    replace (Z.of_nat (0 + List.length pre) <? 0)%Z with false by (symmetry; apply Z.ltb_ge; lia).
    rewrite Nat2Z.id. simpl. rewrite nth_error_app2 by lia. rewrite Nat.sub_diag. reflexivity.
  - intros Hn. rewrite (find_text_absent target _ 0 Hn).
    destruct (assets p) as [|a r]; reflexivity.
Qed.

Lemma picker_default_asset_witness :
  let rel := JObj [("tag_name", JStr "v2");
                   ("assets", JArr [JObj [("name", JStr "Skakavi-krompir-Windows.exe")];
                                    JObj [("name", JStr "Skakavi-Krompir-Linux"); ("size", JInt 5)]])] in
  exists p, new_picker false (JArr [rel]) = Some p /\
  snd (get_selected p) = Some (JObj [("name", JStr "Skakavi-Krompir-Linux"); ("size", JInt 5)]).
Proof.
  intros rel. eexists. split; [reflexivity|].
  apply (proj1 (picker_default_asset false (JArr [rel]) _ eq_refl)
           [("Skakavi-krompir-Windows.exe", JObj [("name", JStr "Skakavi-krompir-Windows.exe")])]
           _ [] eq_refl).
  simpl. intros [H|[]]. discriminate.
Defined.

End PickerFacts.

(** ** The details panel and the mod manager's directories *)

Module DetailsFacts.
Import Json Registry InstanceUi InstanceUiSpec Details.







End DetailsFacts.
